(** * dirtygit: the branch selector of [main.py]

    A shallow embedding of the branch listing ([list_branches]) and of the
    interactive controller ([BranchSelectorUI]): its key handlers, the
    supervision coroutine [_run_git_async] and the input forwarding
    coroutine [_send_to_proc], followed by the properties of the
    specification that were checked against them. *)

From Stdlib Require Import ZArith NArith Lia Ascii String.
From Stdlib.Strings Require Import Byte.
From stdpp Require Import base option list strings pretty.

(** ** Python strings *)

(** A Python [str] is a sequence of Unicode code points. *)
Module PyStr.

Definition str := list N.

(** An ASCII literal of the source as a [str]. *)
Definition lit (s : string) : str :=
  (fun a => N_of_ascii a) <$> list_ascii_of_string s.

(** [str.isspace] on one code point: the characters [str.strip()] removes. *)
Definition isspace (c : N) : bool :=
  ((9 <=? c) && (c <=? 13) || (28 <=? c) && (c <=? 32)
   || (c =? 133) || (c =? 160) || (c =? 5760)
   || (8192 <=? c) && (c <=? 8202)
   || (c =? 8232) || (c =? 8233) || (c =? 8239) || (c =? 8287)
   || (c =? 12288))%N.

(** The line boundaries of [str.splitlines()] other than the pair CR LF. *)
Definition is_linebreak (c : N) : bool :=
  ((10 <=? c) && (c <=? 13) || (28 <=? c) && (c <=? 30)
   || (c =? 133) || (c =? 8232) || (c =? 8233))%N.

Fixpoint lstrip (s : str) : str :=
  match s with
  | c :: rest => if isspace c then lstrip rest else s
  | [] => []
  end.

Definition rstrip (s : str) : str := reverse (lstrip (reverse s)).

(** [s.strip()] *)
Definition strip (s : str) : str := rstrip (lstrip s).

Fixpoint drop_newlines (s : str) : str :=
  match s with
  | c :: rest => if (c =? 10)%N then drop_newlines rest else s
  | [] => []
  end.

(** [s.rstrip("\n")] *)
Definition rstrip_nl (s : str) : str := reverse (drop_newlines (reverse s)).

(** [s.splitlines()]: [cur] is the line being read, most recent character
    first.  CR LF counts as one boundary, and a final boundary opens no
    further line. *)
Fixpoint splitlines_from (cur : str) (s : str) : list str :=
  match s with
  | [] => match cur with [] => [] | _ => [reverse cur] end
  | c :: rest =>
      if (c =? 13)%N then
        match rest with
        | d :: rest' =>
            if (d =? 10)%N then reverse cur :: splitlines_from [] rest'
            else reverse cur :: splitlines_from [] rest
        | [] => reverse cur :: splitlines_from [] rest
        end
      else if is_linebreak c then reverse cur :: splitlines_from [] rest
      else splitlines_from (c :: cur) rest
  end.

Definition splitlines (s : str) : list str := splitlines_from [] s.

(** [sep.join(parts)] *)
Fixpoint join (sep : str) (parts : list str) : str :=
  match parts with
  | [] => []
  | [p] => p
  | p :: rest => p ++ sep ++ join sep rest
  end.

(** Truth value of a [str]: the empty string is false. *)
Definition truthy (s : str) : bool :=
  match s with [] => false | _ => true end.

(** [str(n)] for an [int]. *)
Definition of_int (n : Z) : str := lit (pretty n).

End PyStr.
Export PyStr.

(** ** Exceptions and results *)

Inductive exn :=
| RuntimeError (msg : str)
| IndexError
| OtherException (msg : str).

(** [str(exc)] as interpolated by an f-string. *)
Definition exn_text (e : exn) : str :=
  match e with
  | RuntimeError msg => msg
  | IndexError => lit "list index out of range"
  | OtherException msg => msg
  end.

Inductive res (A : Type) :=
| Ok (a : A)
| Raise (e : exn).
Arguments Ok {A} a.
Arguments Raise {A} e.

#[global] Instance res_ret : MRet res := fun A a => Ok a.
#[global] Instance res_bind : MBind res := fun A B f m =>
  match m with
  | Ok a => f a
  | Raise e => Raise e
  end.

(** ** The branch listing *)

Module Git.

(** [Branch = Tuple[str, bool]]: (branch name, is_current). *)
Definition Branch := (str * bool)%type.

(** What [run_git_output] gives for the two commands [list_branches]
    issues: a return code and the merged output, or an exception of
    [subprocess.run]. *)
Record queries := {
  rev_parse_head : res (Z * str);
  for_each_ref : res (Z * str);
}.

(** The loop over [output.splitlines()], [branches] being the list built
    so far. *)
Fixpoint collect (current : str) (lines : list str) (branches : list Branch)
  : list Branch :=
  match lines with
  | [] => branches
  | line :: rest =>
      let name := strip line in
      if negb (truthy name) then collect current rest branches
      else collect current rest
             (branches ++ [(name, bool_decide (name = current))])
  end.

Definition list_branches (git : queries) : res (list Branch) :=
  '(code, current) ← rev_parse_head git;
  let current := if (code =? 0)%Z then strip current else [] in
  '(code, output) ← for_each_ref git;
  if negb (code =? 0)%Z then Raise (RuntimeError output)
  else Ok (collect current (splitlines output) []).

(** In the specification's words: the branch names are read one per line
    from the enumeration output, blank lines skipped. *)
Definition listed_names (output : str) : list str :=
  filter (fun n : str => n <> []) (strip <$> splitlines output).

(** A branch named [n], marked when [n] is the current branch. *)
Definition mark (current : str) (n : str) : Branch :=
  (n, bool_decide (n = current)).

Definition is_current (b : Branch) : Prop := b.2 = true.

#[global] Instance is_current_dec b : Decision (is_current b).
Proof. unfold is_current. apply _. Defined.

End Git.
Export Git.

(** ** The controller *)

Module Controller.

(** The two focusable elements of the layout. *)
Inductive focus_target := list_window | input_area.

(** The handle [asyncio.create_subprocess_exec] returns.  [stdin_is_none]
    stands for the test [proc.stdin is None]. *)
Record Process := { pid : nat; stdin_is_none : bool }.

(** The callables handed to [_run_git] as [on_success] and [on_failure]. *)
Inductive callback :=
| cb_app_exit                             (* event.app.exit *)
| cb_after_switch                         (* self._after_switch *)
| cb_refresh_branches                     (* self._refresh_branches *)
| cb_start_force_prompt (branch : str).   (* lambda: self._start_force_prompt(branch) *)

(** Where a [_run_git_async] coroutine is suspended: in
    [create_subprocess_exec], in [proc.stdout.readline()] or in
    [proc.wait()]. *)
Inductive stage := Spawning | Reading (p : Process) | Waiting (p : Process).

Record git_task := {
  args : list str;
  on_success : option callback;
  on_failure : option callback;
  refresh : bool;
  stage_of : stage;
}.

(** The background tasks of the application, in creation order; a task
    keeps its position when it ends. *)
Inductive task :=
| RunGitAsync (t : git_task)
| SendToProc (text : str)
| Finished.

(** The fields of [BranchSelectorUI] with what it reads and writes in the
    toolkit: [log_text] is [log_area.text], [input_text] is
    [input_area.text], [focus] the focused element of the layout, [exited]
    whether [app.exit()] was called, [tasks] the background tasks.
    [log_lines] lists the lines handed to [_write_log_file] and
    [stdin_writes] the payloads written to the standard input of child
    processes, both in call order. *)
Record state := {
  quit_on_switch : bool;
  branches : list Branch;
  selected : Z;
  processing : bool;
  proc : option Process;
  status : str;
  awaiting_force_branch : option str;
  log_text : str;
  log_lines : list str;
  input_text : str;
  focus : focus_target;
  exited : bool;
  tasks : list task;
  stdin_writes : list (nat * list byte);
}.

Definition set_branches (v : list Branch) (s : state) : state :=
  {| quit_on_switch := quit_on_switch s; branches := v;
     selected := selected s; processing := processing s; proc := proc s;
     status := status s; awaiting_force_branch := awaiting_force_branch s;
     log_text := log_text s; log_lines := log_lines s;
     input_text := input_text s; focus := focus s; exited := exited s;
     tasks := tasks s; stdin_writes := stdin_writes s |}.

Definition set_selected (v : Z) (s : state) : state :=
  {| quit_on_switch := quit_on_switch s; branches := branches s;
     selected := v; processing := processing s; proc := proc s;
     status := status s; awaiting_force_branch := awaiting_force_branch s;
     log_text := log_text s; log_lines := log_lines s;
     input_text := input_text s; focus := focus s; exited := exited s;
     tasks := tasks s; stdin_writes := stdin_writes s |}.

Definition set_processing (v : bool) (s : state) : state :=
  {| quit_on_switch := quit_on_switch s; branches := branches s;
     selected := selected s; processing := v; proc := proc s;
     status := status s; awaiting_force_branch := awaiting_force_branch s;
     log_text := log_text s; log_lines := log_lines s;
     input_text := input_text s; focus := focus s; exited := exited s;
     tasks := tasks s; stdin_writes := stdin_writes s |}.

Definition set_proc (v : option Process) (s : state) : state :=
  {| quit_on_switch := quit_on_switch s; branches := branches s;
     selected := selected s; processing := processing s; proc := v;
     status := status s; awaiting_force_branch := awaiting_force_branch s;
     log_text := log_text s; log_lines := log_lines s;
     input_text := input_text s; focus := focus s; exited := exited s;
     tasks := tasks s; stdin_writes := stdin_writes s |}.

Definition set_status (v : str) (s : state) : state :=
  {| quit_on_switch := quit_on_switch s; branches := branches s;
     selected := selected s; processing := processing s; proc := proc s;
     status := v; awaiting_force_branch := awaiting_force_branch s;
     log_text := log_text s; log_lines := log_lines s;
     input_text := input_text s; focus := focus s; exited := exited s;
     tasks := tasks s; stdin_writes := stdin_writes s |}.

Definition set_awaiting_force_branch (v : option str) (s : state) : state :=
  {| quit_on_switch := quit_on_switch s; branches := branches s;
     selected := selected s; processing := processing s; proc := proc s;
     status := status s; awaiting_force_branch := v; log_text := log_text s;
     log_lines := log_lines s; input_text := input_text s; focus := focus s;
     exited := exited s; tasks := tasks s; stdin_writes := stdin_writes s |}.

Definition set_log_text (v : str) (s : state) : state :=
  {| quit_on_switch := quit_on_switch s; branches := branches s;
     selected := selected s; processing := processing s; proc := proc s;
     status := status s; awaiting_force_branch := awaiting_force_branch s;
     log_text := v; log_lines := log_lines s; input_text := input_text s;
     focus := focus s; exited := exited s; tasks := tasks s;
     stdin_writes := stdin_writes s |}.

Definition set_log_lines (v : list str) (s : state) : state :=
  {| quit_on_switch := quit_on_switch s; branches := branches s;
     selected := selected s; processing := processing s; proc := proc s;
     status := status s; awaiting_force_branch := awaiting_force_branch s;
     log_text := log_text s; log_lines := v; input_text := input_text s;
     focus := focus s; exited := exited s; tasks := tasks s;
     stdin_writes := stdin_writes s |}.

Definition set_input_text (v : str) (s : state) : state :=
  {| quit_on_switch := quit_on_switch s; branches := branches s;
     selected := selected s; processing := processing s; proc := proc s;
     status := status s; awaiting_force_branch := awaiting_force_branch s;
     log_text := log_text s; log_lines := log_lines s; input_text := v;
     focus := focus s; exited := exited s; tasks := tasks s;
     stdin_writes := stdin_writes s |}.

Definition set_focus (v : focus_target) (s : state) : state :=
  {| quit_on_switch := quit_on_switch s; branches := branches s;
     selected := selected s; processing := processing s; proc := proc s;
     status := status s; awaiting_force_branch := awaiting_force_branch s;
     log_text := log_text s; log_lines := log_lines s;
     input_text := input_text s; focus := v; exited := exited s;
     tasks := tasks s; stdin_writes := stdin_writes s |}.

Definition set_exited (v : bool) (s : state) : state :=
  {| quit_on_switch := quit_on_switch s; branches := branches s;
     selected := selected s; processing := processing s; proc := proc s;
     status := status s; awaiting_force_branch := awaiting_force_branch s;
     log_text := log_text s; log_lines := log_lines s;
     input_text := input_text s; focus := focus s; exited := v;
     tasks := tasks s; stdin_writes := stdin_writes s |}.

Definition set_tasks (v : list task) (s : state) : state :=
  {| quit_on_switch := quit_on_switch s; branches := branches s;
     selected := selected s; processing := processing s; proc := proc s;
     status := status s; awaiting_force_branch := awaiting_force_branch s;
     log_text := log_text s; log_lines := log_lines s;
     input_text := input_text s; focus := focus s; exited := exited s;
     tasks := v; stdin_writes := stdin_writes s |}.

Definition set_stdin_writes (v : list (nat * list byte)) (s : state) : state :=
  {| quit_on_switch := quit_on_switch s; branches := branches s;
     selected := selected s; processing := processing s; proc := proc s;
     status := status s; awaiting_force_branch := awaiting_force_branch s;
     log_text := log_text s; log_lines := log_lines s;
     input_text := input_text s; focus := focus s; exited := exited s;
     tasks := tasks s; stdin_writes := v |}.

Definition with_stage (g : stage) (t : git_task) : git_task :=
  {| args := args t; on_success := on_success t; on_failure := on_failure t;
     refresh := refresh t; stage_of := g |}.

(** *** Status texts *)

(** "↑/↓ to move • Enter to switch • Delete to delete" *)
Definition keys_hint : str :=
  [8593%N] ++ lit "/" ++ [8595%N] ++ lit " to move " ++ [8226%N]
  ++ lit " Enter to switch " ++ [8226%N] ++ lit " Delete to delete".

Definition initial_status : str :=
  keys_hint ++ lit " " ++ [8226%N] ++ lit " Ctrl-C/Esc to quit".
Definition canceled_status : str := lit "Force delete canceled. " ++ keys_hint.
Definition done_status : str := lit "Done. " ++ keys_hint.
Definition switched_status : str := lit "Switched. " ++ keys_hint.
Definition running_status (argv : list str) : str :=
  lit "Running: " ++ join (lit " ") argv.
Definition exit_code_status (code : Z) : str :=
  lit "Git exited with code " ++ of_int code ++ lit ". See output.".
Definition force_prompt_status (branch : str) : str :=
  lit "Delete failed. FORCE delete " ++ branch ++ lit "? y/N".

(** *** Truth values and indexing *)

(** [not l] for a list and [o is None] for an optional value. *)
Definition is_empty {A} (l : list A) : bool :=
  match l with [] => true | _ => false end.

Definition is_none {A} (o : option A) : bool :=
  match o with None => true | Some _ => false end.

Definition is_input (f : focus_target) : bool :=
  match f with input_area => true | list_window => false end.

(** [l[i]] for a Python [int] index: negative indices count from the end,
    anything outside raises [IndexError]. *)
Definition getitem {A} (l : list A) (i : Z) : res A :=
  let j := if (i <? 0)%Z then (Z.of_nat (length l) + i)%Z else i in
  if (j <? 0)%Z then Raise IndexError
  else match l !! Z.to_nat j with
       | Some x => Ok x
       | None => Raise IndexError
       end.

(** *** The log *)

Definition _append_log_sync (line : str) (s : state) : state :=
  let text := log_text s in
  let text := if truthy text then text ++ [10%N] else text in
  set_log_lines (log_lines s ++ [line]) (set_log_text (text ++ line) s).

Definition _append_log (line : str) (s : state) : state :=
  _append_log_sync line s.

(** *** Refreshing the branch list *)

(** The [for idx, (name, _) in enumerate(self.branches)] loop with its
    [break]: the first index holding [old_name]. *)
Definition index_of (old_name : str) (bs : list Branch) : option nat :=
  fst <$> list_find (fun b : Branch => b.1 = old_name) bs.

Definition _refresh_branches (git : queries) (s : state) : res state :=
  old_name ← match branches s with
             | [] => Ok None
             | _ => b ← getitem (branches s) (selected s); Ok (Some b.1)
             end;
  match list_branches git with
  | Raise exc => Ok (_append_log (lit "[error] " ++ exn_text exc) s)
  | Ok bs =>
      let s := set_selected 0 (set_branches bs s) in
      match old_name with
      | Some name =>
          if truthy name then
            match index_of name bs with
            | Some idx => Ok (set_selected (Z.of_nat idx) s)
            | None => Ok s
            end
          else Ok s
      | None => Ok s
      end
  end.

(** *** Starting a command *)

Definition _run_git (argv : list str) (succ fail : option callback)
    (rfr : bool) (s : state) : state :=
  let s := set_processing true s in
  let s := set_status (running_status argv) s in
  let s := _append_log (lit "$ " ++ join (lit " ") argv) s in
  let s := set_focus input_area s in
  set_tasks (tasks s ++ [RunGitAsync {| args := argv; on_success := succ;
                                        on_failure := fail; refresh := rfr;
                                        stage_of := Spawning |}]) s.

Definition _after_switch (git : queries) (s : state) : res state :=
  s ← _refresh_branches git s;
  Ok (set_status switched_status s).

Definition _start_force_prompt (branch : str) (s : state) : state :=
  set_status (force_prompt_status branch)
    (set_awaiting_force_branch (Some branch) s).

(** Calling a callback; [git] answers the listing it may perform. *)
Definition call (cb : callback) (git : queries) (s : state) : res state :=
  match cb with
  | cb_app_exit => Ok (set_exited true s)
  | cb_after_switch => _after_switch git s
  | cb_refresh_branches => _refresh_branches git s
  | cb_start_force_prompt branch => Ok (_start_force_prompt branch s)
  end.

(** *** Key handlers, in the order [_register_keys] defines them *)

Definition on_quit (s : state) : res state := Ok (set_exited true s).

Definition on_up (s : state) : res state :=
  match branches s with
  | [] => Ok s
  | _ => Ok (set_selected
               ((selected s - 1) `mod` Z.of_nat (length (branches s)))%Z s)
  end.

Definition on_down (s : state) : res state :=
  match branches s with
  | [] => Ok s
  | _ => Ok (set_selected
               ((selected s + 1) `mod` Z.of_nat (length (branches s)))%Z s)
  end.

Definition on_enter (s : state) : res state :=
  if processing s || is_empty (branches s) then Ok s
  else
    b ← getitem (branches s) (selected s);
    Ok (_run_git [lit "git"; lit "switch"; b.1]
          (Some (if quit_on_switch s then cb_app_exit else cb_after_switch))
          None (negb (quit_on_switch s)) s).

Definition on_delete (s : state) : res state :=
  if processing s || is_empty (branches s) then Ok s
  else
    b ← getitem (branches s) (selected s);
    Ok (_run_git [lit "git"; lit "branch"; lit "-d"; b.1]
          (Some cb_refresh_branches) (Some (cb_start_force_prompt b.1))
          true s).

Definition on_input_enter (s : state) : res state :=
  let text := input_text s in
  let s := set_input_text [] s in
  if negb (processing s) || is_none (proc s) then Ok s
  else
    let s := set_tasks (tasks s ++ [SendToProc text]) s in
    Ok (_append_log (lit "> " ++ text) s).

Definition on_y (s : state) : res state :=
  match awaiting_force_branch s with
  | None => Ok s
  | Some branch =>
      if negb (truthy branch) then Ok s
      else
        let s := set_awaiting_force_branch None s in
        let s := _append_log (lit "Force deleting " ++ branch) s in
        Ok (_run_git [lit "git"; lit "branch"; lit "-D"; branch]
              (Some cb_refresh_branches) None true s)
  end.

Definition on_n (s : state) : res state :=
  match awaiting_force_branch s with
  | None => Ok s
  | Some branch =>
      if negb (truthy branch) then Ok s
      else Ok (set_status canceled_status
                 (set_awaiting_force_branch None s))
  end.

(** *** Key bindings *)

Inductive key :=
| KEscape | KCtrlC | KUp | KDown | KEnter | KDelete
| KChar (c : N).

(** The three [Condition]s used as filters. *)
Inductive condition :=
| always | not_input_focused | is_input_focused | is_force_prompt.

Definition holds (c : condition) (s : state) : bool :=
  match c with
  | always => true
  | not_input_focused => negb (is_input (focus s))
  | is_input_focused => is_input (focus s)
  | is_force_prompt => negb (is_none (awaiting_force_branch s))
  end.

Inductive handler :=
| h_quit | h_up | h_down | h_enter | h_delete | h_input_enter | h_y | h_n.

Definition handle (h : handler) : state -> res state :=
  match h with
  | h_quit => on_quit
  | h_up => on_up
  | h_down => on_down
  | h_enter => on_enter
  | h_delete => on_delete
  | h_input_enter => on_input_enter
  | h_y => on_y
  | h_n => on_n
  end.

Definition key_eqb (a b : key) : bool :=
  match a, b with
  | KEscape, KEscape | KCtrlC, KCtrlC | KUp, KUp | KDown, KDown
  | KEnter, KEnter | KDelete, KDelete => true
  | KChar c, KChar d => (c =? d)%N
  | _, _ => false
  end.

(** The bindings in registration order (stacked [@kb.add] decorators
    register bottom-up). *)
Definition key_bindings : list (key * condition * handler) :=
  [ (KEscape, always, h_quit);
    (KCtrlC, always, h_quit);
    (KChar 107, not_input_focused, h_up);       (* k *)
    (KUp, not_input_focused, h_up);
    (KChar 106, not_input_focused, h_down);     (* j *)
    (KDown, not_input_focused, h_down);
    (KEnter, not_input_focused, h_enter);
    (KDelete, not_input_focused, h_delete);
    (KEnter, is_input_focused, h_input_enter);
    (KChar 121, is_force_prompt, h_y);          (* y *)
    (KEnter, is_force_prompt, h_n);
    (KChar 110, is_force_prompt, h_n) ].        (* n *)

(** The toolkit's resolution of a key press: among the bindings of the
    key whose filter holds, the one registered last is called. *)
Definition dispatch (k : key) (s : state) : option handler :=
  snd <$> last (List.filter (fun b : key * condition * handler =>
                               key_eqb b.1.1 k && holds b.1.2 s)
                  key_bindings).

(** A key no binding takes goes to the focused element: the input area
    inserts a typed character, the branch list ignores the key. *)
Definition unbound_key (k : key) (s : state) : state :=
  match k, focus s with
  | KChar c, input_area => set_input_text (input_text s ++ [c]) s
  | _, _ => s
  end.

Definition press (k : key) (s : state) : res state :=
  match dispatch k s with
  | Some h => handle h s
  | None => Ok (unbound_key k s)
  end.

(** *** The coroutines *)

Section Coroutines.

(** [bytes.decode(errors="replace")] and [str.encode()]. *)
Variable decode : list byte -> str.
Variable encode : str -> list byte.

(** [_run_git_async], resumed from [create_subprocess_exec] with the new
    process [child]; started with [stdin=PIPE], it has a standard input. *)
Definition spawned (t : git_task) (child : nat) (s : state)
  : state * git_task :=
  let p := {| pid := child; stdin_is_none := false |} in
  (set_proc (Some p) s, with_stage (Reading p) t).

(** One turn of the [while True] loop: [line] is what [readline()]
    returned, empty at end of stream. *)
Definition got_line (t : git_task) (p : Process) (line : list byte)
    (s : state) : state * git_task :=
  match line with
  | [] => (s, with_stage (Waiting p) t)
  | _ => (_append_log (rstrip_nl (decode line)) s, t)
  end.

(** From [code = await proc.wait()] to the end.  [git1] answers the
    listing of [if refresh:], [git2] the one a callback performs. *)
Definition finish (t : git_task) (code : Z) (git1 git2 : queries)
    (s : state) : res state :=
  let s := set_processing false s in
  let s := set_proc None s in
  s ← (if (code =? 0)%Z then
         s ← (if refresh t then _refresh_branches git1 s else Ok s);
         match on_success t with
         | Some cb => call cb git2 s
         | None => Ok (set_status done_status s)
         end
       else
         let s := set_status (exit_code_status code) s in
         match on_failure t with
         | Some cb => call cb git2 s
         | None => Ok s
         end);
  Ok (set_focus list_window s).

(** [_send_to_proc], run up to its end (a failing [drain()] is ignored). *)
Definition _send_to_proc (text : str) (s : state) : state :=
  match proc s with
  | Some p =>
      if negb (processing s) || stdin_is_none p then s
      else set_stdin_writes
             (stdin_writes s ++ [(pid p, encode (text ++ [10%N]))]) s
  | None => s
  end.

(** *** The event loop *)

(** What the loop delivers: a key press, or the resumption of background
    task [i] with the value it awaited, or with the exception the awaited
    call raised ([create_subprocess_exec] when the program cannot be
    started, [readline] on a line longer than the stream's limit). *)
Inductive event :=
| Key (k : key)
| Spawned (i child : nat)
| Readline (i : nat) (line : list byte)
| Waited (i : nat) (code : Z) (git1 git2 : queries)
| SendRuns (i : nat)
| Raised (i : nat) (exc : exn).

Definition set_task (i : nat) (t : task) (s : state) : state :=
  set_tasks (<[i := t]> (tasks s)) s.

(** One event.  [None]: the event cannot occur in [s] (the application has
    exited, or task [i] is not waiting for this); [Some (Raise e)]: an
    exception nothing in the program catches.  [_run_git_async] has no
    handler around its awaits: an exception of [create_subprocess_exec] or
    of [readline] ends the coroutine where it stands, before any further
    assignment, so the controller's fields are as they were (in
    particular [processing] stays set).  What a session does after it is
    what it does from the same state with task [i] never resumed. *)
Definition step (e : event) (s : state) : option (res state) :=
  if exited s then None
  else
    match e with
    | Key k => Some (press k s)
    | Spawned i child =>
        match tasks s !! i with
        | Some (RunGitAsync t) =>
            match stage_of t with
            | Spawning =>
                let '(s, t) := spawned t child s in
                Some (Ok (set_task i (RunGitAsync t) s))
            | _ => None
            end
        | _ => None
        end
    | Readline i line =>
        match tasks s !! i with
        | Some (RunGitAsync t) =>
            match stage_of t with
            | Reading p =>
                let '(s, t) := got_line t p line s in
                Some (Ok (set_task i (RunGitAsync t) s))
            | _ => None
            end
        | _ => None
        end
    | Waited i code git1 git2 =>
        match tasks s !! i with
        | Some (RunGitAsync t) =>
            match stage_of t with
            | Waiting p =>
                Some (s ← finish t code git1 git2 s;
                      Ok (set_task i Finished s))
            | _ => None
            end
        | _ => None
        end
    | SendRuns i =>
        match tasks s !! i with
        | Some (SendToProc text) =>
            Some (Ok (set_task i Finished (_send_to_proc text s)))
        | _ => None
        end
    | Raised i exc =>
        match tasks s !! i with
        | Some (RunGitAsync t) =>
            match stage_of t with
            | Waiting _ => None
            | _ => Some (Raise exc)
            end
        | _ => None
        end
    end.

(** A run of events, each of which occurs and raises nothing. *)
Fixpoint run (evs : list event) (s : state) : option state :=
  match evs with
  | [] => Some s
  | e :: rest =>
      match step e s with
      | Some (Ok s') => run rest s'
      | _ => None
      end
  end.

(** [__init__] on the listing [bs]. *)
Definition initial (quit : bool) (bs : list Branch) : state :=
  {| quit_on_switch := quit; branches := bs; selected := 0;
     processing := false; proc := None; status := initial_status;
     awaiting_force_branch := None; log_text := []; log_lines := [];
     input_text := []; focus := list_window; exited := false;
     tasks := []; stdin_writes := [] |}.

(** The states of a session: [__init__] lists the branches, [run] starts
    the application when there is at least one, then events follow. *)
Inductive reachable : state -> Prop :=
| reach_initial quit git bs :
    list_branches git = Ok bs -> bs <> [] -> reachable (initial quit bs)
| reach_step s e s' :
    reachable s -> step e s = Some (Ok s') -> reachable s'.

(** The lines task [i] read from its process over a run, as logged. *)
Fixpoint lines_read (i : nat) (evs : list event) : list str :=
  match evs with
  | [] => []
  | Readline j (b :: bs) :: rest =>
      if bool_decide (j = i)
      then rstrip_nl (decode (b :: bs)) :: lines_read i rest
      else lines_read i rest
  | _ :: rest => lines_read i rest
  end.

End Coroutines.

(** The processes started whose exit code was not yet observed. *)
Definition is_active (t : task) : bool :=
  match t with
  | RunGitAsync t =>
      match stage_of t with
      | Spawning => false
      | _ => true
      end
  | _ => false
  end.

Definition active_processes (s : state) : nat :=
  length (filter (fun t => is_active t = true) (tasks s)).

(** *** Interaction modes *)

(** The mode the specification names for a state of the controller. *)
Inductive Mode :=
| Navigating
| Busy
| ConfirmingForceDelete (branch : str).

Definition mode (s : state) : Mode :=
  if processing s then Busy
  else match awaiting_force_branch s with
       | Some branch => ConfirmingForceDelete branch
       | None => Navigating
       end.

(** *** The log as a sequence of lines *)

(** The text the log area shows once [lines] are appended to [text], one
    call of [_append_log_sync] each. *)
Definition shown (text : str) (lines : list str) : str :=
  foldl (fun text line =>
           (if truthy text then text ++ [10%N] else text) ++ line)
    text lines.

(** From [s] to [s'] the log was only appended to. *)
Definition appends (s s' : state) : Prop :=
  exists d, log_lines s' = log_lines s ++ d
            /\ log_text s' = shown (log_text s) d.

(** *** Invariants of a session *)

(** The selection points into a non-empty branch list. *)
Definition sel_ok (s : state) : Prop :=
  branches s = [] \/ (0 <= selected s < Z.of_nat (length (branches s)))%Z.

(** The process handle held has a standard input. *)
Definition proc_ok (s : state) : Prop :=
  forall p, proc s = Some p -> stdin_is_none p = false.

(** No empty branch name is listed, awaited or carried by a callback. *)
Definition cb_ok (cb : option callback) : Prop :=
  forall b, cb = Some (cb_start_force_prompt b) -> b <> [].

Definition task_ok (x : task) : Prop :=
  match x with
  | RunGitAsync t => cb_ok (on_success t) /\ cb_ok (on_failure t)
  | _ => True
  end.

Definition names_ok (s : state) : Prop :=
  Forall (fun b : Branch => b.1 <> []) (branches s)
  /\ (forall b, awaiting_force_branch s = Some b -> b <> [])
  /\ Forall task_ok (tasks s).

(** Outside a command the branch list has the focus. *)
Definition focus_ok (s : state) : Prop :=
  processing s = false -> focus s = list_window.

(** The branch name the selection is on, if any. *)
Definition selected_name (s : state) : option str :=
  match branches s with
  | [] => None
  | _ => match getitem (branches s) (selected s) with
         | Ok b => Some b.1
         | Raise _ => None
         end
  end.

(** Two task records of the same command: they differ at most in the
    stage the coroutine has reached. *)
Definition same_command (t t' : git_task) : Prop :=
  args t' = args t /\ on_success t' = on_success t
  /\ on_failure t' = on_failure t /\ refresh t' = refresh t.

(** *** A codec for examples *)

(** On ASCII, UTF-8 maps a byte to the code point of the same number; the
    examples below use ASCII text only. *)
Definition ascii_decode (b : list byte) : str :=
  (fun x => if (Byte.to_N x <? 128)%N then Byte.to_N x else 65533%N) <$> b.

Definition ascii_encode (t : str) : list byte :=
  (fun c => match Byte.of_N c with
            | Some x => if (c <? 128)%N then x else x3f
            | None => x3f
            end) <$> t.

(** The state after a run of events, or [s] itself when the run is not
    possible. *)
Definition after (evs : list event) (s : state) : state :=
  default s (run ascii_decode ascii_encode evs s).

(** A repository with the branches main and old, main checked out, and
    what the controller shows for it at start. *)
Definition main_and_old : queries :=
  {| rev_parse_head := Ok (0%Z, lit "main" ++ [10%N]);
     for_each_ref := Ok (0%Z, lit "main" ++ [10%N] ++ lit "old" ++ [10%N]) |}.

Definition main_and_old_listed : list Branch :=
  [(lit "main", true); (lit "old", false)].

(** Down and delete, the deletion failing with code 1: the force delete
    of old is then awaited. *)
Definition failed_delete : list event :=
  [Key KDown; Key KDelete; Spawned 0 100; Readline 0 [];
   Waited 0 1%Z main_and_old main_and_old].

(** Then delete again and, once its process runs, y. *)
Definition delete_then_y : list event :=
  failed_delete ++ [Key KDelete; Spawned 1 101; Key (KChar 121); Spawned 2 102].

(** The session in which the force delete of old is awaited. *)
Definition awaiting_old : state :=
  after failed_delete (initial false main_and_old_listed).

(** A delete, or a switch, of main whose process has ended its output. *)
Definition delete_drained : state :=
  after [Key KDelete; Spawned 0 100; Readline 0 []]
    (initial false main_and_old_listed).

Definition switch_drained : state :=
  after [Key KEnter; Spawned 0 100; Readline 0 []]
    (initial false main_and_old_listed).

(** A delete whose process prints "one" and "two" before it ends. *)
Definition delete_printing : list event :=
  [Key KDelete; Spawned 0 100;
   Readline 0 [x6f; x6e; x65; x0a]; Readline 0 [x74; x77; x6f];
   Readline 0 []].

(** The same repository once old is checked out. *)
Definition old_checked_out : queries :=
  {| rev_parse_head := Ok (0%Z, lit "old" ++ [10%N]);
     for_each_ref := Ok (0%Z, lit "main" ++ [10%N] ++ lit "old" ++ [10%N]) |}.

(** The same repository once old is deleted. *)
Definition only_main : queries :=
  {| rev_parse_head := Ok (0%Z, lit "main" ++ [10%N]);
     for_each_ref := Ok (0%Z, lit "main" ++ [10%N]) |}.

(** After [delete_then_y] the force delete ends with code 0 while the
    second [git branch -d old] still runs; the controller navigates
    again. *)
Definition force_delete_done : list event :=
  delete_then_y ++ [Readline 2 []; Waited 2 0%Z only_main only_main].

(** Enter then starts [git switch main]; the deletion left behind ends
    with code 1 meanwhile, and the switch ends its output. *)
Definition switch_beside_delete : list event :=
  [Spawned 3 103; Readline 1 []; Waited 1 1%Z only_main only_main;
   Readline 3 []].

Definition navigating_beside_delete : state :=
  after force_delete_done (initial false main_and_old_listed).

Definition switch_at_prompt : state :=
  after (Key KEnter :: switch_beside_delete) navigating_beside_delete.



End Controller.
Export Controller.

(** ** Rendering the branch list *)

Module Rendering.

(** One [(style, text)] pair of a [FormattedText]. *)
Definition fragment := (str * str)%type.

(** The body of the [for idx, (name, is_current) in enumerate(...)] loop
    of [_render_branch_list]: the fragment it appends for entry [idx]. *)
Definition render_line (selected : Z) (idx : nat) (b : Branch) : fragment :=
  let style_parts := [lit "class:branch"] in
  let style_parts :=
    if b.2 then style_parts ++ [lit "class:branch.current"]
    else style_parts in
  let style_parts :=
    if (Z.of_nat idx =? selected)%Z
    then style_parts ++ [lit "class:branch.selected"]
    else style_parts in
  let prefix := if b.2 then lit "* " else lit "  " in
  (join (lit " ") style_parts, prefix ++ b.1 ++ [10%N]).

(** The loop from entry [idx] on, [lines] being the fragments so far. *)
Fixpoint render_from (selected : Z) (idx : nat) (bs : list Branch)
    (lines : list fragment) : list fragment :=
  match bs with
  | [] => lines
  | b :: rest =>
      render_from selected (S idx) rest
        (lines ++ [render_line selected idx b])
  end.

Definition _render_branch_list (s : state) : list fragment :=
  if is_empty (branches s)
  then [(lit "class:branch", lit "No branches found" ++ [10%N])]
  else render_from (selected s) 0 (branches s) [].

(** A fragment drawn with the selection style. *)
Definition highlighted (f : fragment) : Prop :=
  f.1 = lit "class:branch class:branch.selected"
  \/ f.1 = lit "class:branch class:branch.current class:branch.selected".

End Rendering.
Export Rendering.

(** ** Starting the program *)

Module Startup.

(** How [main] ends or goes on: [sys.exit(code)] after a message on the
    standard error, an exception nothing catches, [run] returning after a
    message on the standard output, or the application running from a
    state. *)
Inductive ending :=
| SysExit (code : Z) (stderr : str)
| Uncaught (e : exn)
| Returned (stdout : str)
| AppRuns (s : state).

(** [ensure_repo(path)], [check] being what [run_git_output] gives for
    [git rev-parse --is-inside-work-tree]; [None] when it returns. *)
Definition ensure_repo (path : str) (check : res (Z * str)) : option ending :=
  match check with
  | Raise e => Some (Uncaught e)
  | Ok (code, out) =>
      if negb (code =? 0)%Z || negb (bool_decide (strip out = lit "true"))
      then Some (SysExit 1 (lit "Not a git repository: " ++ path ++ [10%N]))
      else None
  end.

(** [BranchSelectorUI.__init__]: [log_dir] is the outcome of creating the
    log directory, [git] answers the listing. *)
Definition __init__ (quit : bool) (log_dir : res unit) (git : queries)
  : res state :=
  _ ← log_dir;
  bs ← list_branches git;
  Ok (initial quit bs).

(** [BranchSelectorUI.run] *)
Definition run_ui (s : state) : ending :=
  if is_empty (branches s) then Returned (lit "No branches found." ++ [10%N])
  else AppRuns s.

(** [main], with the parsed [--quit-on-switch] flag and the working
    directory [cwd]. *)
Definition main (quit : bool) (cwd : str) (check : res (Z * str))
    (log_dir : res unit) (git : queries) : ending :=
  match ensure_repo cwd check with
  | Some e => e
  | None =>
      match __init__ quit log_dir git with
      | Raise e => Uncaught e
      | Ok ui => run_ui ui
      end
  end.

End Startup.
Export Startup.

(** ** Commands in flight *)

Module Flight.

(** The [_run_git_async] coroutines that have not ended. *)
Definition is_command (x : task) : bool :=
  match x with RunGitAsync _ => true | _ => false end.

Definition commands_running (s : state) : nat :=
  length (List.filter is_command (tasks s)).

(** One command runs exactly while [processing] is set, and no force
    delete is awaited meanwhile. *)
Definition one_command (s : state) : Prop :=
  commands_running s = (if processing s then 1 else 0)
  /\ (processing s = true -> awaiting_force_branch s = None).

(** The callbacks the key handlers hand to [_run_git]. *)
Definition handler_made (quit : bool) (x : task) : Prop :=
  match x with
  | RunGitAsync t =>
      (on_failure t = None
       \/ exists b, on_failure t = Some (cb_start_force_prompt b))
      /\ (on_success t = Some cb_refresh_branches
          \/ on_success t = Some cb_after_switch /\ quit = false
          \/ on_success t = Some cb_app_exit /\ quit = true)
  | _ => True
  end.

Section Calm.

Variable decode : list byte -> str.
Variable encode : str -> list byte.

(** Whether, along the run of [evs] from [s], delete is never pressed
    while a force delete is awaited. *)
Fixpoint no_delete_at_prompt (evs : list event) (s : state) : bool :=
  match evs with
  | [] => true
  | e :: rest =>
      match e with
      | Key KDelete => is_none (awaiting_force_branch s)
      | _ => true
      end
      && match step decode encode e s with
         | Some (Ok s') => no_delete_at_prompt rest s'
         | _ => true
         end
  end.

End Calm.

End Flight.
Export Flight.

(** ** Branch names as tokens *)

(** A name that [strip] and [splitlines] leave whole: not empty, no
    whitespace at either end, no line boundary inside. *)
Definition clean_name (n : str) : Prop :=
  n <> []
  /\ (forall c, head n = Some c -> isspace c = false)
  /\ (forall c, last n = Some c -> isspace c = false)
  /\ Forall (fun c => is_linebreak c = false) n.

(** The enumeration output that lists [names], one per line. *)
Definition one_per_line (names : list str) : str :=
  concat ((fun n => n ++ [10%N]) <$> names).

(** ** Events of a process *)

(** The events by which a process comes up and prints. *)
Definition is_output (e : event) : bool :=
  match e with
  | Spawned _ _ | Readline _ _ => true
  | _ => false
  end.

(** * Properties *)

(** ** The branch listing *)

Section Listing.

Implicit Types (current output : str) (names lines : list str).

Lemma truthy_nonempty (n : str) : truthy n = true <-> n <> [].
Proof. destruct n; simpl; split; congruence. Qed.

Lemma collect_spec current lines acc :
  collect current lines acc
  = acc ++ (mark current <$> filter (fun n : str => n <> []) (strip <$> lines)).
Proof.
  revert acc. induction lines as [|line rest IH]; intros acc.
  - simpl. by rewrite app_nil_r.
  - rewrite fmap_cons, filter_cons. cbn [collect].
    destruct (strip line) as [|c n] eqn:E; cbn [truthy negb].
    + rewrite IH. by rewrite decide_False by tauto.
    + rewrite IH. rewrite decide_True by done.
      by rewrite fmap_cons, <- app_assoc.
Qed.

Lemma list_branches_eq c1 o1 c2 o2 :
  list_branches {| rev_parse_head := Ok (c1, o1); for_each_ref := Ok (c2, o2) |}
  = if negb (c2 =? 0)%Z then Raise (RuntimeError o2)
    else Ok (mark (if (c1 =? 0)%Z then strip o1 else []) <$> listed_names o2).
Proof.
  unfold list_branches; simpl. destruct (c2 =? 0)%Z; simpl; [|done].
  by rewrite collect_spec.
Qed.

(** Whatever the queries give, a listing that succeeds has the form
    [mark current <$> names] with no empty name. *)
Lemma list_branches_shape git bs :
  list_branches git = Ok bs ->
  exists current names, bs = mark current <$> names /\ Forall (fun n => n <> []) names.
Proof.
  unfold list_branches.
  destruct (rev_parse_head git) as [[c1 o1]|]; simpl; [|done].
  destruct (for_each_ref git) as [[c2 o2]|]; simpl; [|done].
  destruct (c2 =? 0)%Z; simpl; [|done].
  intros [= <-]. rewrite collect_spec. simpl.
  eexists _, _. split; [done|].
  apply Forall_forall. intros n Hn. apply list_elem_of_filter in Hn. tauto.
Qed.

Lemma names_of_mark current names : (mark current <$> names).*1 = names.
Proof.
  induction names as [|n names IH]; [done|].
  rewrite !fmap_cons. simpl. by rewrite IH.
Qed.

Lemma list_branches_names_nonempty git bs :
  list_branches git = Ok bs -> Forall (fun n => n <> []) bs.*1.
Proof.
  intros (current & names & -> & Hne)%list_branches_shape.
  by rewrite names_of_mark.
Qed.

Lemma no_current_when_absent current names :
  current ∉ names -> filter is_current (mark current <$> names) = [].
Proof.
  induction names as [|n names IH]; intros Hnot; [done|].
  rewrite fmap_cons, filter_cons.
  apply not_elem_of_cons in Hnot as [Hne Hnot].
  rewrite decide_False.
  - by apply IH.
  - unfold is_current, mark; simpl. rewrite bool_decide_eq_true. congruence.
Qed.

Lemma one_current_when_distinct current names :
  NoDup names -> length (filter is_current (mark current <$> names)) <= 1.
Proof.
  induction 1 as [|n names Hn Hnd IH]; [simpl; lia|].
  rewrite fmap_cons, filter_cons.
  case_decide as Hc; [|done].
  unfold is_current, mark in Hc; simpl in Hc.
  apply bool_decide_eq_true in Hc. subst n.
  rewrite no_current_when_absent by done. simpl; lia.
Qed.

(** C6.  With both queries answered by return codes [c1], [c2] and outputs
    [o1], [o2]: a non-zero enumeration code raises an error carrying the
    raw output [o2]; otherwise the listing succeeds with one branch per
    non-blank (stripped) line of [o2], in order, and a branch is marked
    current exactly when the current-branch query returned zero and the
    name equals its (stripped) output.  In particular a failed
    current-branch query marks nothing and does not fail the listing. *)
Theorem C6_list_branches_outcome (c1 c2 : Z) (o1 o2 : str) :
  list_branches {| rev_parse_head := Ok (c1, o1); for_each_ref := Ok (c2, o2) |}
  = if negb (c2 =? 0)%Z then Raise (RuntimeError o2)
    else Ok ((fun n : str =>
                (n, (c1 =? 0)%Z && bool_decide (n = strip o1)))
             <$> listed_names o2).
Proof.
  rewrite list_branches_eq. destruct (c2 =? 0)%Z; simpl; [|done].
  f_equal. apply list_fmap_ext. intros i n Hn.
  unfold mark. f_equal. destruct (c1 =? 0)%Z; simpl; [done|].
  apply bool_decide_eq_false.
  apply list_elem_of_lookup_2 in Hn. unfold listed_names in Hn.
  apply list_elem_of_filter in Hn. tauto.
Qed.

(** C9, as stated, fails: the enumeration output "main\nmain\n" with
    "main" checked out lists the name twice, both entries marked
    current. *)
Lemma C9_counterexample :
  exists bs,
    list_branches
      {| rev_parse_head := Ok (0%Z, lit "main" ++ [10%N]);
         for_each_ref := Ok (0%Z, lit "main" ++ [10%N] ++ lit "main" ++ [10%N]) |}
    = Ok bs
    /\ length (filter is_current bs) = 2
    /\ ~ NoDup bs.*1.
Proof.
  eexists. split; [vm_compute; reflexivity|]. split; [reflexivity|].
  intros H. apply NoDup_cons_1_1 in H. apply H. left.
Qed.

(** C9, amended.  When the names the enumeration output lists are pairwise
    distinct, the listing has unique names and at most one branch marked
    current. *)
Theorem C9_distinct_names_one_current (c1 c2 : Z) (o1 o2 : str) (bs : list Branch) :
  list_branches {| rev_parse_head := Ok (c1, o1); for_each_ref := Ok (c2, o2) |}
  = Ok bs ->
  NoDup (listed_names o2) ->
  NoDup bs.*1 /\ length (filter is_current bs) <= 1.
Proof.
  rewrite list_branches_eq. destruct (c2 =? 0)%Z; simpl; [|done].
  intros [= <-] Hnd. rewrite names_of_mark. split; [done|].
  by apply one_current_when_distinct.
Qed.

End Listing.

Lemma C9_distinct_names_one_current_witness :
  let bs := [(lit "main", true); (lit "old", false)] in
  NoDup bs.*1 /\ length (filter is_current bs) <= 1.
Proof.
  apply (C9_distinct_names_one_current 0 0 (lit "main" ++ [10%N])
           (lit "main" ++ [10%N] ++ lit "old" ++ [10%N])).
  - vm_compute; reflexivity.
  - eapply (bool_decide_unpack _). vm_compute. exact I.
Defined.

(** ** The controller *)

Section Session.

Variable decode : list byte -> str.
Variable encode : str -> list byte.

Local Abbreviation step := (step decode encode).
Local Abbreviation run := (run decode encode).
Local Abbreviation reachable := (reachable decode encode).
Local Abbreviation lines_read := (lines_read decode).

Implicit Types (s : state) (t : git_task) (k : key) (e : event).

Local Arguments lit : simpl never.

Ltac unfold_ui :=
  unfold press, handle, unbound_key, on_quit, on_up, on_down, on_enter,
    on_delete, on_input_enter, on_y, on_n, finish, call, _after_switch,
    _start_force_prompt, _run_git, _send_to_proc, spawned, got_line,
    set_task, mbind, res_bind in *.

(** *** Which handler a key reaches *)

Lemma dispatch_list_keys s :
  focus s = list_window ->
  dispatch KUp s = Some h_up /\ dispatch (KChar 107) s = Some h_up
  /\ dispatch KDown s = Some h_down /\ dispatch (KChar 106) s = Some h_down
  /\ dispatch KDelete s = Some h_delete.
Proof. intros Hf. unfold dispatch; simpl. rewrite Hf; simpl. done. Qed.

Lemma dispatch_enter_navigating s :
  focus s = list_window -> awaiting_force_branch s = None ->
  dispatch KEnter s = Some h_enter.
Proof. intros Hf Ha. unfold dispatch; simpl. rewrite Hf, Ha; simpl. done. Qed.


Lemma dispatch_force_prompt s b :
  awaiting_force_branch s = Some b ->
  dispatch (KChar 121) s = Some h_y /\ dispatch (KChar 110) s = Some h_n
  /\ dispatch KEnter s = Some h_n.
Proof.
  intros Ha. unfold dispatch; simpl. rewrite Ha; simpl.
  destruct (focus s); simpl; done.
Qed.

(** *** Appending to the log *)

Lemma appends_refl s : appends s s.
Proof. exists []. by rewrite app_nil_r. Qed.

Lemma appends_trans s1 s2 s3 : appends s1 s2 -> appends s2 s3 -> appends s1 s3.
Proof.
  intros (d1 & L1 & T1) (d2 & L2 & T2). exists (d1 ++ d2).
  rewrite L2, L1, T2, T1, app_assoc. unfold shown. by rewrite foldl_app.
Qed.

Ltac solve_appends :=
  unfold appends, _append_log, _append_log_sync; simpl;
  first [ by (exists []; rewrite ?app_nil_r)
        | by (eexists [_])
        | by (eexists [_; _]; split; [by rewrite <- app_assoc | done]) ].

(** *** What the refresh does *)

Lemma index_of_lt name (bs : list Branch) idx :
  index_of name bs = Some idx -> idx < length bs.
Proof.
  unfold index_of. destruct (list_find _ bs) as [[i b]|] eqn:E; [|done].
  simpl. intros [= <-]. apply list_find_Some in E as (E & _ & _).
  by eapply lookup_lt_Some.
Qed.

Lemma refresh_cases git s s' :
  _refresh_branches git s = Ok s' ->
  (exists exc, list_branches git = Raise exc
               /\ s' = _append_log (lit "[error] " ++ exn_text exc) s)
  \/ (exists bs sel, list_branches git = Ok bs
                     /\ s' = set_selected sel (set_branches bs s)
                     /\ (sel = 0 \/ 0 <= sel < Z.of_nat (length bs))%Z).
Proof.
  unfold _refresh_branches, mbind, res_bind.
  destruct (match branches s with [] => _ | _ => _ end) as [old|]; [|done].
  destruct (list_branches git) as [bs|exc].
  - intros H. right. exists bs.
    destruct old as [name|]; [destruct (truthy name);
      [destruct (index_of name bs) as [idx|] eqn:E|]|];
      simplify_eq; eauto.
    exists (Z.of_nat idx). split; [done|]. split; [done|].
    right. apply index_of_lt in E. lia.
  - intros [= <-]. left. eauto.
Qed.


Lemma refresh_frame git s s' :
  _refresh_branches git s = Ok s' ->
  quit_on_switch s' = quit_on_switch s /\ processing s' = processing s
  /\ proc s' = proc s /\ status s' = status s
  /\ awaiting_force_branch s' = awaiting_force_branch s
  /\ input_text s' = input_text s /\ focus s' = focus s
  /\ exited s' = exited s /\ tasks s' = tasks s
  /\ stdin_writes s' = stdin_writes s
  /\ appends s s'.
Proof.
  intros [(exc & _ & ->)|(bs & sel & _ & -> & _)]%refresh_cases; simpl;
    repeat split; try done; solve_appends.
Qed.

Lemma refresh_sel_ok git s s' :
  _refresh_branches git s = Ok s' -> sel_ok s -> sel_ok s'.
Proof.
  intros [(exc & _ & ->)|(bs & sel & _ & -> & Hsel)]%refresh_cases Hs.
  - exact Hs.
  - unfold sel_ok; simpl. destruct bs as [|b bs]; [by left|right].
    destruct Hsel as [->|?]; [simpl; lia|done].
Qed.

(** *** What a key press leaves alone *)

Lemma press_frame k s s' :
  press k s = Ok s' ->
  quit_on_switch s' = quit_on_switch s /\ branches s' = branches s
  /\ proc s' = proc s /\ stdin_writes s' = stdin_writes s
  /\ (exists new, tasks s' = tasks s ++ new
                  /\ Forall (fun x : task => is_active x = false) new)
  /\ appends s s'.
Proof.
  unfold press. destruct (dispatch k s) as [[]|]; unfold_ui; intros H;
    repeat case_match; simplify_eq; simpl;
    (repeat split; try done;
     first [ solve_appends
           | by (exists []; rewrite app_nil_r; auto)
           | by (eexists [_]; auto) ]).
Qed.

Lemma press_sel_ok k s s' : press k s = Ok s' -> sel_ok s -> sel_ok s'.
Proof.
  unfold press. destruct (dispatch k s) as [[]|]; unfold_ui; intros H Hs;
    repeat case_match; simplify_eq; try exact Hs;
    unfold sel_ok in *; simpl in *; right;
    match goal with H : branches _ = _ :: _ |- _ => rewrite H end;
    apply Z.mod_pos_bound; simpl; lia.
Qed.


(** *** What the end of a command leaves alone *)

Ltac use_refresh :=
  repeat match goal with
    | H : _refresh_branches _ _ = Ok _ |- _ =>
        let F := fresh "F" in
        pose proof (refresh_sel_ok _ _ _ H);
        pose proof (refresh_frame _ _ _ H) as F; clear H;
        destruct F as (? & ? & ? & ? & ? & ? & ? & ? & ? & ? & ?)
    end.

Lemma finish_frame t code git1 git2 s s' :
  finish t code git1 git2 s = Ok s' ->
  quit_on_switch s' = quit_on_switch s /\ processing s' = false
  /\ proc s' = None /\ focus s' = list_window
  /\ input_text s' = input_text s /\ tasks s' = tasks s
  /\ stdin_writes s' = stdin_writes s
  /\ appends s s'.
Proof.
  unfold_ui. intros H. repeat case_match; simplify_eq; use_refresh;
    simpl in *; repeat split; try congruence;
    repeat (eapply appends_trans; [|eassumption]); solve_appends.
Qed.

Lemma finish_sel_ok t code git1 git2 s s' :
  finish t code git1 git2 s = Ok s' -> sel_ok s -> sel_ok s'.
Proof.
  unfold_ui. intros H Hs. repeat case_match; simplify_eq; use_refresh;
    unfold sel_ok in *; simpl in *; auto.
Qed.


(** *** One event *)

Lemma step_inv e s s' :
  step e s = Some (Ok s') ->
  exited s = false /\
  match e with
  | Key k => press k s = Ok s'
  | Spawned i child =>
      exists t, tasks s !! i = Some (RunGitAsync t) /\ stage_of t = Spawning
        /\ let p := {| pid := child; stdin_is_none := false |} in
           s' = set_task i (RunGitAsync (with_stage (Reading p) t))
                  (set_proc (Some p) s)
  | Readline i line =>
      exists t p, tasks s !! i = Some (RunGitAsync t)
        /\ stage_of t = Reading p
        /\ s' = match line with
                | [] => set_task i (RunGitAsync (with_stage (Waiting p) t)) s
                | _ => set_task i (RunGitAsync t)
                         (_append_log (rstrip_nl (decode line)) s)
                end
  | Waited i code git1 git2 =>
      exists t p s'', tasks s !! i = Some (RunGitAsync t)
        /\ stage_of t = Waiting p
        /\ finish t code git1 git2 s = Ok s''
        /\ s' = set_task i Finished s''
  | SendRuns i =>
      exists text, tasks s !! i = Some (SendToProc text)
        /\ s' = set_task i Finished (_send_to_proc encode text s)
  | Raised _ _ => False
  end.
Proof.
  unfold step. destruct (exited s); [done|]. intros H. split; [done|].
  destruct e as [k|i child|i line|i code git1 git2|i|i exc]; simpl in H.
  - by simplify_eq.
  - destruct (tasks s !! i) as [[t| |]|]; try done.
    destruct (stage_of t) eqn:E; try done. simplify_eq. eauto.
  - destruct (tasks s !! i) as [[t| |]|]; try done.
    destruct (stage_of t) as [|p|p] eqn:E; try done.
    exists t, p. split; [done|]. split; [done|].
    destruct line; simpl in H; by simplify_eq.
  - destruct (tasks s !! i) as [[t| |]|]; try done.
    destruct (stage_of t) as [|p|p] eqn:E; try done.
    destruct (finish t code git1 git2 s) as [s''|] eqn:F; simpl in H;
      simplify_eq. by exists t, p, s''.
  - destruct (tasks s !! i) as [[t|text|]|]; try done.
    simplify_eq. eauto.
  - destruct (tasks s !! i) as [[t| |]|]; try done.
    by destruct (stage_of t).
Qed.

(** How the task list moves: a key press appends tasks that have no
    process yet, a resumption updates the stage of one task, and nothing
    ever leaves position [i]. *)
Lemma step_tasks e s s' :
  step e s = Some (Ok s') ->
  match e with
  | Key _ => exists new, tasks s' = tasks s ++ new
               /\ Forall (fun x : task => is_active x = false) new
  | Spawned i _ =>
      exists t p, tasks s !! i = Some (RunGitAsync t) /\ stage_of t = Spawning
        /\ tasks s' = <[i := RunGitAsync (with_stage (Reading p) t)]> (tasks s)
  | Readline i line =>
      exists t p, tasks s !! i = Some (RunGitAsync t)
        /\ stage_of t = Reading p
        /\ tasks s' = <[i := RunGitAsync (match line with
                                         | [] => with_stage (Waiting p) t
                                         | _ => t
                                         end)]> (tasks s)
  | Waited i _ _ _ =>
      exists t p, tasks s !! i = Some (RunGitAsync t)
        /\ stage_of t = Waiting p
        /\ tasks s' = <[i := Finished]> (tasks s)
  | SendRuns i =>
      exists text, tasks s !! i = Some (SendToProc text)
        /\ tasks s' = <[i := Finished]> (tasks s)
  | Raised _ _ => False
  end.
Proof.
  intros [_ H]%step_inv. destruct e as [k|i child|i line|i code g1 g2|i|i exc].
  - by apply press_frame in H as (_ & _ & _ & _ & ? & _).
  - destruct H as (t & ? & ? & ->). by eexists t, _.
  - destruct H as (t & p & ? & ? & ->). exists t, p.
    by destruct line.
  - destruct H as (t & p & s'' & ? & ? & F & ->). exists t, p.
    apply finish_frame in F as (_ & _ & _ & _ & _ & F & _).
    simpl. by rewrite F.
  - destruct H as (text & ? & ->). exists text. split; [done|].
    unfold_ui. by repeat case_match.
  - done.
Qed.


Lemma finished_stays e s s' i :
  step e s = Some (Ok s') ->
  tasks s !! i = Some Finished -> tasks s' !! i = Some Finished.
Proof.
  intros H Hi. apply step_tasks in H.
  destruct e as [k|j child|j line|j code g1 g2|j|j exc].
  - destruct H as (new & -> & _). by apply lookup_app_l_Some.
  - destruct H as (t & p & Hj & _ & ->).
    destruct (decide (j = i)) as [->|]; [congruence|].
    by rewrite list_lookup_insert_ne.
  - destruct H as (t & p & Hj & _ & ->).
    destruct (decide (j = i)) as [->|]; [congruence|].
    by rewrite list_lookup_insert_ne.
  - destruct H as (t & p & Hj & _ & ->).
    destruct (decide (j = i)) as [->|]; [congruence|].
    by rewrite list_lookup_insert_ne.
  - destruct H as (text & Hj & ->).
    destruct (decide (j = i)) as [->|]; [congruence|].
    by rewrite list_lookup_insert_ne.
  - done.
Qed.

Lemma same_command_refl t : same_command t t.
Proof. by unfold same_command. Qed.

Lemma same_command_stage t g : same_command t (with_stage g t).
Proof. by unfold same_command. Qed.

Lemma command_stays e s s' i t :
  step e s = Some (Ok s') ->
  tasks s !! i = Some (RunGitAsync t) ->
  tasks s' !! i = Some Finished
  \/ exists t', tasks s' !! i = Some (RunGitAsync t') /\ same_command t t'.
Proof.
  intros H Hi. apply step_tasks in H.
  assert (i < length (tasks s)) as Hlt by by eapply lookup_lt_Some.
  destruct e as [k|j child|j line|j code g1 g2|j|j exc].
  - destruct H as (new & -> & _). right. exists t.
    split; [by apply lookup_app_l_Some | apply same_command_refl].
  - destruct H as (t0 & p & Hj & _ & ->). right.
    destruct (decide (j = i)) as [->|].
    + rewrite list_lookup_insert_eq by done. simplify_eq.
      eexists. split; [done | apply same_command_stage].
    + rewrite list_lookup_insert_ne by done.
      exists t. split; [done | apply same_command_refl].
  - destruct H as (t0 & p & Hj & _ & ->). right.
    destruct (decide (j = i)) as [->|].
    + rewrite list_lookup_insert_eq by done. simplify_eq.
      eexists. split; [done|].
      destruct line; [apply same_command_stage | apply same_command_refl].
    + rewrite list_lookup_insert_ne by done.
      exists t. split; [done | apply same_command_refl].
  - destruct H as (t0 & p & Hj & _ & ->).
    destruct (decide (j = i)) as [->|].
    + left. by rewrite list_lookup_insert_eq.
    + right. rewrite list_lookup_insert_ne by done.
      exists t. split; [done | apply same_command_refl].
  - destruct H as (text & Hj & ->).
    destruct (decide (j = i)) as [->|]; [congruence|].
    right. rewrite list_lookup_insert_ne by done.
    exists t. split; [done | apply same_command_refl].
  - done.
Qed.

(** A task comes to wait for the exit code by reading the end of the
    stream, and by nothing else. *)
Lemma waiting_from e s s' i t' p :
  step e s = Some (Ok s') ->
  tasks s' !! i = Some (RunGitAsync t') -> stage_of t' = Waiting p ->
  (exists t, tasks s !! i = Some (RunGitAsync t) /\ stage_of t = Waiting p)
  \/ e = Readline i [].
Proof.
  intros H Hi Hw. apply step_tasks in H.
  destruct e as [k|j child|j line|j code g1 g2|j|j exc].
  - destruct H as (new & Hn & Hnew). rewrite Hn in Hi.
    destruct (decide (i < length (tasks s))).
    + rewrite lookup_app_l in Hi by done. eauto.
    + rewrite lookup_app_r in Hi by lia.
      apply list_elem_of_lookup_2 in Hi.
      eapply Forall_forall in Hnew; [|done]. simpl in Hnew.
      by rewrite Hw in Hnew.
  - destruct H as (t0 & p0 & Hj & _ & Hn). rewrite Hn in Hi.
    destruct (decide (j = i)) as [->|].
    + rewrite list_lookup_insert_eq in Hi by by eapply lookup_lt_Some.
      by simplify_eq.
    + rewrite list_lookup_insert_ne in Hi by done. eauto.
  - destruct H as (t0 & p0 & Hj & Hs & Hn). rewrite Hn in Hi.
    destruct (decide (j = i)) as [->|].
    + rewrite list_lookup_insert_eq in Hi by by eapply lookup_lt_Some.
      destruct line; [by right|]. simplify_eq. congruence.
    + rewrite list_lookup_insert_ne in Hi by done. eauto.
  - destruct H as (t0 & p0 & Hj & _ & Hn). rewrite Hn in Hi.
    destruct (decide (j = i)) as [->|].
    + rewrite list_lookup_insert_eq in Hi by by eapply lookup_lt_Some.
      done.
    + rewrite list_lookup_insert_ne in Hi by done. eauto.
  - destruct H as (text & Hj & Hn). rewrite Hn in Hi.
    destruct (decide (j = i)) as [->|].
    + rewrite list_lookup_insert_eq in Hi by by eapply lookup_lt_Some.
      done.
    + rewrite list_lookup_insert_ne in Hi by done. eauto.
  - done.
Qed.

(** Every event only appends to the log, and a line read by task [i] is
    among what its event appends. *)
Lemma step_log e s s' i :
  step e s = Some (Ok s') ->
  exists d, log_lines s' = log_lines s ++ d
            /\ log_text s' = shown (log_text s) d
            /\ lines_read i [e] `sublist_of` d.
Proof.
  intros [_ H]%step_inv. destruct e as [k|j child|j line|j code g1 g2|j|j exc];
    simpl.
  - apply press_frame in H as (_ & _ & _ & _ & _ & (d & ? & ?)).
    exists d. repeat split; [done.. | apply sublist_nil_l].
  - destruct H as (t & ? & ? & ->). exists []. simpl.
    by rewrite app_nil_r.
  - destruct H as (t & p & ? & ? & ->). destruct line as [|b bs]; simpl.
    + exists []. by rewrite app_nil_r.
    + eexists [_]. repeat split.
      case_bool_decide; [done | apply sublist_nil_l].
  - destruct H as (t & p & s'' & ? & ? & F & ->).
    apply finish_frame in F as (_ & _ & _ & _ & _ & _ & _ & (d & ? & ?)).
    exists d. repeat split; [done.. | apply sublist_nil_l].
  - destruct H as (text & ? & ->). exists [].
    unfold_ui. repeat case_match; simpl; by rewrite app_nil_r.
  - done.
Qed.


(** *** Runs *)

Lemma run_cons e evs s s' :
  run (e :: evs) s = Some s' <->
  exists s1, step e s = Some (Ok s1) /\ run evs s1 = Some s'.
Proof.
  simpl. destruct (step e s) as [[s1|]|]; split;
    try done; try (intros (? & ? & ?); done).
  - eauto.
  - by intros (? & [= ->] & ?).
Qed.

Lemma run_app evs1 evs2 s s' :
  run (evs1 ++ evs2) s = Some s' <->
  exists s1, run evs1 s = Some s1 /\ run evs2 s1 = Some s'.
Proof.
  revert s. induction evs1 as [|e evs1 IH]; intros s.
  - simpl. split; [eauto | by intros (? & [= ->] & ?)].
  - rewrite <- app_comm_cons, run_cons. split.
    + intros (s1 & He & (s2 & ? & ?)%IH). exists s2.
      split; [apply run_cons|]; eauto.
    + intros (s2 & (s1 & ? & ?)%run_cons & ?). exists s1.
      split; [done|]. apply IH. eauto.
Qed.

Lemma lines_read_cons i e evs :
  lines_read i (e :: evs) = lines_read i [e] ++ lines_read i evs.
Proof.
  destruct e as [| |j [|b bs]| | |]; simpl; try done. by case_bool_decide.
Qed.

Lemma lines_read_app i evs1 evs2 :
  lines_read i (evs1 ++ evs2) = lines_read i evs1 ++ lines_read i evs2.
Proof.
  induction evs1 as [|e evs1 IH]; [done|].
  rewrite <- app_comm_cons, lines_read_cons, IH, (lines_read_cons i e evs1).
  by rewrite app_assoc.
Qed.

Lemma run_log evs s s' i :
  run evs s = Some s' ->
  exists seg, log_lines s' = log_lines s ++ seg
              /\ log_text s' = shown (log_text s) seg
              /\ lines_read i evs `sublist_of` seg.
Proof.
  revert s. induction evs as [|e evs IH]; intros s.
  - intros [= ->]. exists []. by rewrite app_nil_r.
  - intros (s1 & (d & Hd & Td & Hsub)%(step_log _ _ _ i)
              & (seg & Hseg & Tseg & Hsubs)%IH)%run_cons.
    exists (d ++ seg). rewrite Hseg, Hd, Tseg, Td, app_assoc.
    split; [done|]. split; [unfold shown; by rewrite foldl_app|].
    rewrite lines_read_cons. by apply sublist_app.
Qed.

Lemma run_finished_stays evs s s' i :
  run evs s = Some s' ->
  tasks s !! i = Some Finished -> tasks s' !! i = Some Finished.
Proof.
  revert s. induction evs as [|e evs IH]; intros s; [by intros [= ->]|].
  intros (s1 & He & Hr)%run_cons Hi. eapply IH; [done|].
  by eapply finished_stays.
Qed.

Lemma same_command_trans t1 t2 t3 :
  same_command t1 t2 -> same_command t2 t3 -> same_command t1 t3.
Proof. unfold same_command. intuition congruence. Qed.

Lemma run_command_stays evs s s' i t :
  run evs s = Some s' ->
  tasks s !! i = Some (RunGitAsync t) ->
  tasks s' !! i = Some Finished
  \/ exists t', tasks s' !! i = Some (RunGitAsync t') /\ same_command t t'.
Proof.
  revert s t. induction evs as [|e evs IH]; intros s t.
  - intros [= ->] Hi. right. exists t. split; [done | apply same_command_refl].
  - intros (s1 & He & Hr)%run_cons Hi.
    destruct (command_stays _ _ _ _ _ He Hi) as [Hf|(t1 & H1 & Hc1)].
    + left. by eapply run_finished_stays.
    + destruct (IH _ _ Hr H1) as [?|(t2 & ? & ?)]; [by left|right].
      exists t2. split; [done|]. by eapply same_command_trans.
Qed.

(** Once a task has ended, no event reads for it again. *)
Lemma nothing_read_once_finished evs s s' i :
  run evs s = Some s' -> tasks s !! i = Some Finished ->
  lines_read i evs = [].
Proof.
  revert s. induction evs as [|e evs IH]; intros s; [done|].
  intros (s1 & He & Hr)%run_cons Hi. rewrite lines_read_cons.
  rewrite (IH s1), app_nil_r by eauto using finished_stays.
  destruct e as [| |j [|b bs]| | |]; try done. simpl.
  case_bool_decide; [subst j|done].
  apply step_tasks in He as (t & p & ? & _). congruence.
Qed.

(** A task that waits for the exit code has read the end of its stream,
    and has read nothing since. *)
Lemma end_of_stream_before_wait pre s s1 i t p :
  run pre s = Some s1 ->
  tasks s1 !! i = Some (RunGitAsync t) -> stage_of t = Waiting p ->
  (exists t0, tasks s !! i = Some (RunGitAsync t0) /\ stage_of t0 = Waiting p)
  \/ exists before after,
       pre = before ++ Readline i [] :: after /\ lines_read i after = [].
Proof.
  revert s1 t. induction pre as [|e pre IH] using rev_ind; intros s1 t.
  - intros [= ->]. eauto.
  - intros (s' & Hpre & (s1' & He & [= ->])%run_cons)%run_app Hi Hw.
    destruct (waiting_from _ _ _ _ _ _ He Hi Hw) as [(t0 & H0 & Hw0)| ->].
    + destruct (IH _ _ Hpre H0 Hw0) as [?|(before & after & -> & Hnone)];
        [by left|right].
      exists before, (after ++ [e]). rewrite <- app_assoc. split; [done|].
      rewrite lines_read_app, Hnone. simpl.
      destruct e as [| |j [|b bs]| | |]; try done. simpl.
      case_bool_decide; [subst j|done].
      apply step_tasks in He as (t1 & p1 & ? & ? & _). congruence.
    + right. by exists pre, [].
Qed.


(** *** Invariants *)

Lemma getitem_elem {A} (l : list A) (i : Z) (x : A) :
  getitem l i = Ok x -> x ∈ l.
Proof.
  unfold getitem.
  set (j := if (i <? 0)%Z then (Z.of_nat (length l) + i)%Z else i).
  destruct (j <? 0)%Z; [done|].
  destruct (l !! Z.to_nat j) as [y|] eqn:E; [|done].
  intros [= <-]. by eapply list_elem_of_lookup_2.
Qed.

Lemma getitem_in_range {A} (l : list A) (i : Z) :
  (0 <= i < Z.of_nat (length l))%Z -> exists x, getitem l i = Ok x.
Proof.
  intros Hi. unfold getitem.
  destruct (i <? 0)%Z eqn:E; [lia|]. rewrite E.
  destruct (l !! Z.to_nat i) as [x|] eqn:L; [eauto|].
  apply lookup_ge_None in L. lia.
Qed.

Lemma refresh_ok git s :
  sel_ok s -> exists s', _refresh_branches git s = Ok s'.
Proof.
  intros Hs. unfold _refresh_branches, mbind, res_bind.
  destruct (branches s) as [|b bs] eqn:B.
  - repeat case_match; eauto.
  - destruct Hs as [?|Hs]; [congruence|]. rewrite B in Hs.
    destruct (getitem_in_range (b :: bs) (selected s) Hs) as [x ->].
    repeat case_match; eauto.
Qed.

Lemma refresh_names_ok git s s' :
  _refresh_branches git s = Ok s' -> names_ok s -> names_ok s'.
Proof.
  intros [(exc & _ & ->)|(bs & sel & L & -> & _)]%refresh_cases
    (Hb & Ha & Ht); [done|].
  split; [|done]. simpl.
  apply list_branches_names_nonempty in L.
  by apply (Forall_fmap fst (fun n : str => n <> [])) in L.
Qed.

Lemma press_names_ok k s s' : press k s = Ok s' -> names_ok s -> names_ok s'.
Proof.
  unfold press. destruct (dispatch k s) as [[]|]; unfold_ui;
    intros H Hok;
    repeat case_match; simplify_eq; try done;
    destruct Hok as (Hb & Ha & Ht); unfold names_ok; simpl;
    (split; [done|]; split; [try done|]);
    try done; try (apply Forall_app; split; [done|]);
    try (apply Forall_singleton; split; intros ? [=]; subst);
    try (intros b' ?; apply (Ha b'); congruence).
  match goal with
  | G : getitem _ _ = Ok ?a |- _ =>
      apply getitem_elem in G; by eapply Forall_forall in Hb
  end.
Qed.

Lemma press_Ok k s : sel_ok s -> exists s', press k s = Ok s'.
Proof.
  intros Hs. unfold press.
  destruct (dispatch k s) as [[]|]; unfold_ui; repeat case_match; eauto;
    destruct Hs as [Hs|Hs];
    try (rewrite Hs in *; simpl in *;
         rewrite ?orb_true_r in *; done);
    destruct (getitem_in_range _ _ Hs); congruence.
Qed.


Lemma call_Ok cb git s : sel_ok s -> exists s', call cb git s = Ok s'.
Proof.
  intros Hs. destruct cb; simpl; eauto.
  - unfold _after_switch, mbind, res_bind.
    destruct (refresh_ok git _ Hs) as [s1 ->]. eauto.
  - by apply refresh_ok.
Qed.

Lemma finish_Ok t code git1 git2 s :
  sel_ok s -> exists s', finish t code git1 git2 s = Ok s'.
Proof.
  intros Hs. unfold finish, mbind, res_bind.
  set (s0 := set_proc None (set_processing false s)).
  assert (sel_ok s0) as H0 by exact Hs.
  destruct (code =? 0)%Z.
  - assert (exists s1, (if refresh t then _refresh_branches git1 s0 else Ok s0)
                       = Ok s1 /\ sel_ok s1) as (s1 & -> & H1).
    { destruct (refresh t); [|eauto].
      destruct (refresh_ok git1 _ H0) as [s1 E]. exists s1.
      split; [done | by eapply refresh_sel_ok]. }
    destruct (on_success t) as [cb|]; [|eauto].
    destruct (call_Ok cb git2 _ H1) as [s2 ->]. eauto.
  - destruct (on_failure t) as [cb|]; [|eauto].
    assert (sel_ok (set_status (exit_code_status code) s0)) as H1 by exact Hs.
    destruct (call_Ok cb git2 _ H1) as [s2 ->]. eauto.
Qed.

Lemma names_ok_frame s s' :
  branches s' = branches s -> tasks s' = tasks s ->
  (awaiting_force_branch s' = awaiting_force_branch s
   \/ awaiting_force_branch s' = None
   \/ exists b, awaiting_force_branch s' = Some b /\ b <> []) ->
  names_ok s -> names_ok s'.
Proof.
  intros Eb Et Ea (Hb & Ha & Ht). unfold names_ok. rewrite Eb, Et.
  repeat split; try done. intros b Hs'.
  destruct Ea as [Ea|[Ea|(b' & Ea & ?)]]; [|congruence..].
  apply Ha. congruence.
Qed.

Lemma finish_names_ok t code git1 git2 s s' :
  finish t code git1 git2 s = Ok s' ->
  task_ok (RunGitAsync t) -> names_ok s -> names_ok s'.
Proof.
  unfold_ui. intros H [Hs Hf] Hok.
  assert (names_ok (set_proc None (set_processing false s))) as H0
    by exact Hok.
  repeat case_match; simplify_eq;
    repeat match goal with
      | R : _refresh_branches _ _ = Ok _ |- _ =>
          apply refresh_names_ok in R; [|done]
      end;
    try done;
    (eapply names_ok_frame; [simpl; reflexivity | simpl; reflexivity | | ];
     [|eassumption]; simpl; eauto 6).
Qed.

Lemma step_invariants e s s' :
  step e s = Some (Ok s') ->
  sel_ok s /\ proc_ok s /\ names_ok s ->
  sel_ok s' /\ proc_ok s' /\ names_ok s'.
Proof.
  intros [_ H]%step_inv (Hs & Hp & Hn).
  destruct e as [k|i child|i line|i code g1 g2|i|i exc].
  - split; [by eapply press_sel_ok|]. split; [|by eapply press_names_ok].
    apply press_frame in H as (_ & _ & E & _). unfold proc_ok. by rewrite E.
  - destruct H as (t & Hi & _ & ->). split; [done|]. split.
    + intros p [= <-]. done.
    + destruct Hn as (Hb & Ha & Ht). repeat split; try done. simpl.
      apply Forall_insert; [done|].
      by apply (Forall_lookup_1 _ _ _ _ Ht Hi).
  - destruct H as (t & p & Hi & _ & ->).
    destruct Hn as (Hb & Ha & Ht).
    pose proof (Forall_lookup_1 _ _ _ _ Ht Hi) as Hti.
    destruct line; (split; [done|]; split; [done|]);
      repeat split; try done; simpl; by apply Forall_insert.
  - destruct H as (t & p & s'' & Hi & _ & F & ->).
    assert (task_ok (RunGitAsync t)) as Hti.
    { destruct Hn as (_ & _ & Ht). by apply (Forall_lookup_1 _ _ _ _ Ht Hi). }
    pose proof (finish_sel_ok _ _ _ _ _ _ F Hs).
    pose proof (finish_names_ok _ _ _ _ _ _ F Hti Hn) as (Hb & Ha & Ht).
    apply finish_frame in F as (_ & _ & E & _).
    split; [done|]. split.
    + intros p0. simpl. by rewrite E.
    + repeat split; try done. simpl. by apply Forall_insert.
  - destruct H as (text & Hi & ->).
    assert (_send_to_proc encode text s = s
            \/ exists w, _send_to_proc encode text s = set_stdin_writes w s)
      as [->| [w ->]].
    { unfold_ui. repeat case_match; eauto. }
    + destruct Hn as (Hb & Ha & Ht). repeat split; try done.
      simpl. by apply Forall_insert.
    + destruct Hn as (Hb & Ha & Ht). repeat split; try done.
      simpl. by apply Forall_insert.
  - done.
Qed.

Lemma initial_invariants quit git bs :
  list_branches git = Ok bs -> bs <> [] ->
  sel_ok (initial quit bs) /\ proc_ok (initial quit bs)
  /\ names_ok (initial quit bs).
Proof.
  intros L Hne. split; [|split].
  - right. simpl. destruct bs; [done | simpl; lia].
  - by intros p.
  - split; [|done]. simpl.
    apply list_branches_names_nonempty in L.
    by apply (Forall_fmap fst (fun n : str => n <> [])) in L.
Qed.

Lemma reachable_invariants s :
  reachable s -> sel_ok s /\ proc_ok s /\ names_ok s.
Proof.
  induction 1 as [quit git bs L Hne | s e s' _ IH He].
  - by eapply initial_invariants.
  - by eapply step_invariants.
Qed.

Lemma run_reachable evs s s' :
  reachable s -> run evs s = Some s' -> reachable s'.
Proof.
  revert s. induction evs as [|e evs IH]; intros s Hs.
  - by intros [= <-].
  - intros (s1 & He & Hr)%run_cons. eapply IH; [|done].
    by eapply reach_step.
Qed.

Lemma run_quit_on_switch evs s s' :
  run evs s = Some s' -> quit_on_switch s' = quit_on_switch s.
Proof.
  revert s. induction evs as [|e evs IH]; intros s; [by intros [= ->]|].
  intros (s1 & [_ He]%step_inv & ->%IH)%run_cons.
  destruct e as [k|i child|i line|i code g1 g2|i|i exc].
  - by apply press_frame in He as (? & _).
  - by destruct He as (t & _ & _ & ->).
  - destruct He as (t & p & _ & _ & ->). by destruct line.
  - destruct He as (t & p & s'' & _ & _ & F & ->).
    by apply finish_frame in F as (? & _).
  - destruct He as (text & _ & ->). unfold_ui. by repeat case_match.
  - done.
Qed.


(** *** Moving the selection *)



(** *** The force-delete prompt *)

Lemma press_focus_ok k s s' : press k s = Ok s' -> focus_ok s -> focus_ok s'.
Proof.
  unfold press, focus_ok. destruct (dispatch k s) as [[]|]; unfold_ui;
    intros H Hs; repeat case_match; simplify_eq; simpl in *; try done.
  all: intros Hp; specialize (Hs Hp); congruence.
Qed.

Lemma step_focus_ok e s s' :
  step e s = Some (Ok s') -> focus_ok s -> focus_ok s'.
Proof.
  intros [_ H]%step_inv Hs.
  destruct e as [k|i child|i line|i code g1 g2|i|i exc].
  - by eapply press_focus_ok.
  - by destruct H as (t & _ & _ & ->).
  - destruct H as (t & p & _ & _ & ->). by destruct line.
  - destruct H as (t & p & s'' & _ & _ & F & ->).
    apply finish_frame in F as (_ & _ & _ & F & _). by intros _.
  - destruct H as (text & _ & ->). unfold_ui. by repeat case_match.
  - done.
Qed.

Lemma reachable_focus_ok s : reachable s -> focus_ok s.
Proof.
  induction 1 as [quit git bs L Hne | s e s' _ IH He]; [done|].
  by eapply step_focus_ok.
Qed.

Lemma mode_confirming s b :
  mode s = ConfirmingForceDelete b <->
  processing s = false /\ awaiting_force_branch s = Some b.
Proof.
  unfold mode. destruct (processing s), (awaiting_force_branch s);
    (split; [intros H | intros [H1 H2]]); by simplify_eq.
Qed.

Lemma mode_navigating s :
  mode s = Navigating <->
  processing s = false /\ awaiting_force_branch s = None.
Proof.
  unfold mode. destruct (processing s), (awaiting_force_branch s);
    (split; [intros H | intros [H1 H2]]); by simplify_eq.
Qed.

(** C3, amended.  In a state confirming the force delete of [b]: y starts
    [git branch -D b] and the controller is busy; n and enter cancel the
    confirmation, set the status to the "Force delete canceled" hint and
    leave the controller navigating; the movement keys (up, down, k, j)
    and the keys no binding takes leave the confirmation pending and the
    status as it was. *)
Theorem C3_force_prompt_keys s b :
  reachable s -> mode s = ConfirmingForceDelete b ->
  (exists sy, press (KChar 121) s = Ok sy
     /\ mode sy = Busy /\ awaiting_force_branch sy = None
     /\ focus sy = input_area
     /\ tasks sy = tasks s ++
          [RunGitAsync {| args := [lit "git"; lit "branch"; lit "-D"; b];
                          on_success := Some cb_refresh_branches;
                          on_failure := None; refresh := true;
                          stage_of := Spawning |}])
  /\ (forall k, k = KChar 110 \/ k = KEnter ->
        exists sn, press k s = Ok sn
          /\ mode sn = Navigating /\ status sn = canceled_status
          /\ tasks sn = tasks s /\ branches sn = branches s
          /\ selected sn = selected s /\ log_lines sn = log_lines s)
  /\ (forall k, k = KUp \/ k = KChar 107 \/ k = KDown \/ k = KChar 106
                \/ dispatch k s = None ->
        exists sm, press k s = Ok sm
          /\ mode sm = ConfirmingForceDelete b /\ status sm = status s
          /\ tasks sm = tasks s).
Proof.
  intros Hr [Hp Ha]%mode_confirming.
  pose proof (reachable_invariants s Hr) as (_ & _ & _ & Hne & _).
  specialize (Hne b Ha).
  assert (truthy b = true) as Hb by by apply truthy_nonempty.
  pose proof (reachable_focus_ok s Hr Hp) as Hf.
  destruct (dispatch_force_prompt s b Ha) as (Dy & Dn & De).
  destruct (dispatch_list_keys s Hf) as (Du & Dk & Dd & Dj & _).
  split; [|split].
  - unfold press. rewrite Dy. simpl. unfold on_y. rewrite Ha, Hb. simpl.
    eexists. split; [done|]. by repeat split.
  - intros k [->| ->]; unfold press; rewrite ?Dn, ?De; simpl;
      unfold on_n; rewrite Ha, Hb; simpl;
      (eexists; split; [done|]); repeat split; try done;
      apply mode_navigating; done.
  - assert (forall sm, processing sm = processing s ->
              awaiting_force_branch sm = awaiting_force_branch s ->
              mode sm = ConfirmingForceDelete b) as Hm.
    { intros sm E1 E2. apply mode_confirming. by rewrite E1, E2. }
    intros k [->|[->|[->|[->|Dnone]]]]; unfold press;
      rewrite ?Du, ?Dk, ?Dd, ?Dj, ?Dnone; simpl;
      unfold on_up, on_down, unbound_key;
      repeat case_match; (eexists; split; [done|]);
      repeat split; try done; by apply Hm.
Qed.


(** *** The end of a command *)

Lemma getitem_nonempty {A} (l : list A) (i : Z) (x : A) :
  getitem l i = Ok x -> is_empty l = false.
Proof. intros H%getitem_elem. destruct l; [by apply elem_of_nil in H | done]. Qed.

(** What delete and enter start from a navigating state with the branch
    list focused and the selection on [b]. *)
Lemma press_starts_command k s b :
  k = KDelete \/ k = KEnter ->
  mode s = Navigating -> focus s = list_window ->
  getitem (branches s) (selected s) = Ok b ->
  exists s1 t,
    press k s = Ok s1 /\ tasks s1 = tasks s ++ [RunGitAsync t]
    /\ processing s1 = true /\ focus s1 = input_area
    /\ stage_of t = Spawning
    /\ match k with
       | KDelete =>
           args t = [lit "git"; lit "branch"; lit "-d"; b.1]
           /\ on_success t = Some cb_refresh_branches
           /\ on_failure t = Some (cb_start_force_prompt b.1)
           /\ refresh t = true
       | _ =>
           args t = [lit "git"; lit "switch"; b.1]
           /\ on_success t = Some (if quit_on_switch s then cb_app_exit
                                   else cb_after_switch)
           /\ on_failure t = None
           /\ refresh t = negb (quit_on_switch s)
       end.
Proof.
  intros Hk [Hp Ha]%mode_navigating Hf Hg.
  pose proof (getitem_nonempty _ _ _ Hg) as Hne.
  destruct (dispatch_list_keys s Hf) as (_ & _ & _ & _ & Dx).
  pose proof (dispatch_enter_navigating s Hf Ha) as De.
  destruct Hk as [->| ->]; unfold press; rewrite ?Dx, ?De; simpl;
    unfold on_delete, on_enter; rewrite Hp, Hne, Hg; simpl;
    eexists _, _; (split; [done|]); by repeat split.
Qed.

(** X20.  A delete or a switch started from a navigating state on branch
    [b], whose process then ends with a non-zero code: focus returns to
    the branch list and no command is marked as running; after the delete
    the status asks whether to force delete [b] and the controller
    confirms the force delete of [b]; after the switch the status reports
    the exit code and the completion leaves [awaiting_force_branch] as it
    found it, so the controller navigates when no force delete was
    awaited at that moment and still confirms the awaited one
    otherwise. *)
Theorem X20_failed_command_outcome k s0 b evs s2 i t p code git1 git2 :
  k = KDelete \/ k = KEnter ->
  mode s0 = Navigating -> focus s0 = list_window ->
  getitem (branches s0) (selected s0) = Ok b ->
  i = length (tasks s0) ->
  run (Key k :: evs) s0 = Some s2 ->
  tasks s2 !! i = Some (RunGitAsync t) -> stage_of t = Waiting p ->
  exited s2 = false ->
  code <> 0%Z ->
  exists s3,
    step (Waited i code git1 git2) s2 = Some (Ok s3)
    /\ processing s3 = false /\ proc s3 = None /\ focus s3 = list_window
    /\ match k with
       | KDelete =>
           args t = [lit "git"; lit "branch"; lit "-d"; b.1]
           /\ status s3 = force_prompt_status b.1
           /\ mode s3 = ConfirmingForceDelete b.1
       | _ =>
           args t = [lit "git"; lit "switch"; b.1]
           /\ status s3 = exit_code_status code
           /\ awaiting_force_branch s3 = awaiting_force_branch s2
           /\ mode s3 = match awaiting_force_branch s2 with
                        | None => Navigating
                        | Some b' => ConfirmingForceDelete b'
                        end
       end.
Proof.
  intros Hk Hm Hf Hg -> (s1 & [_ Hpress]%step_inv & Hrun)%run_cons
    Hi Hw Hex Hcode.
  destruct (press_starts_command k s0 b Hk Hm Hf Hg)
    as (s1' & t0 & Hp' & Ht0 & _ & _ & _ & Hcmd).
  rewrite Hpress in Hp'. injection Hp' as <-.
  assert (tasks s1 !! length (tasks s0) = Some (RunGitAsync t0)) as H0.
  { rewrite Ht0. by apply list_lookup_middle. }
  destruct (run_command_stays _ _ _ _ _ Hrun H0)
    as [?|(t' & Ht' & Ea & Es & Ef & Er)]; [congruence|].
  assert (t' = t) as -> by congruence.
  apply Z.eqb_neq in Hcode.
  unfold step. rewrite Hex, Hi, Hw. unfold finish. rewrite Hcode, Ef.
  destruct Hk as [->| ->]; destruct Hcmd as (Ha0 & _ & Hf0 & _);
    rewrite Hf0; simpl; (eexists; split; [done|]); rewrite Ea, Ha0;
    repeat split; try done.
Qed.

(** C7, amended.  A switch to [b] started from a navigating state, whose
    process then ends with code 0: with quit-on-switch the application
    exits and the branch list, the selection and the log are as they
    were, no listing being made; without it the branch list is refreshed
    (for the [refresh] flag, then again by [_after_switch]), the status is
    the "Switched" hint, the application goes on and, provided no force
    delete is awaited when the command ends, the controller navigates. *)
Theorem C7_switch_succeeds s0 b evs s2 i t p git1 git2 :
  reachable s0 -> mode s0 = Navigating ->
  getitem (branches s0) (selected s0) = Ok b ->
  i = length (tasks s0) ->
  run (Key KEnter :: evs) s0 = Some s2 ->
  tasks s2 !! i = Some (RunGitAsync t) -> stage_of t = Waiting p ->
  exited s2 = false ->
  args t = [lit "git"; lit "switch"; b.1]
  /\ if quit_on_switch s0 then
       exists s3,
         step (Waited i 0 git1 git2) s2 = Some (Ok s3)
         /\ exited s3 = true /\ processing s3 = false
         /\ branches s3 = branches s2 /\ selected s3 = selected s2
         /\ log_lines s3 = log_lines s2
     else
       exists r1 r2 s3,
         _refresh_branches git1 (set_proc None (set_processing false s2))
         = Ok r1
         /\ _refresh_branches git2 r1 = Ok r2
         /\ step (Waited i 0 git1 git2) s2 = Some (Ok s3)
         /\ branches s3 = branches r2 /\ selected s3 = selected r2
         /\ (forall bs, list_branches git2 = Ok bs -> branches s3 = bs)
         /\ status s3 = switched_status /\ exited s3 = false
         /\ processing s3 = false /\ focus s3 = list_window
         /\ (awaiting_force_branch s2 = None -> mode s3 = Navigating).
Proof.
  intros Hr Hm Hg -> Hrun Hi Hw Hex.
  pose proof (run_reachable _ _ _ Hr Hrun) as Hr2.
  apply run_cons in Hrun as (s1 & [_ Hpress]%step_inv & Hrun).
  assert (focus s0 = list_window) as Hf.
  { apply (reachable_focus_ok s0 Hr). by apply mode_navigating in Hm as [? _]. }
  destruct (press_starts_command KEnter s0 b (or_intror eq_refl) Hm Hf Hg)
    as (s1' & t0 & Hp' & Ht0 & _ & _ & _ & Ha0 & Hs0 & Hf0 & Hr0).
  rewrite Hpress in Hp'. injection Hp' as <-.
  assert (tasks s1 !! length (tasks s0) = Some (RunGitAsync t0)) as H0.
  { rewrite Ht0. by apply list_lookup_middle. }
  destruct (run_command_stays _ _ _ _ _ Hrun H0)
    as [?|(t' & Ht' & Ea & Es & Ef & Er)]; [congruence|].
  assert (t' = t) as -> by congruence.
  split; [congruence|].
  unfold step. rewrite Hex, Hi, Hw. unfold finish.
  rewrite Es, Er, Hs0, Hr0. simpl.
  destruct (quit_on_switch s0); simpl.
  - eexists. split; [done|]. by repeat split.
  - pose proof (reachable_invariants s2 Hr2) as (Hsel & _).
    set (c := set_proc None (set_processing false s2)).
    assert (sel_ok c) as Hc by exact Hsel.
    destruct (refresh_ok git1 c Hc) as [r1 E1].
    pose proof (refresh_sel_ok _ _ _ E1 Hc) as Hc1.
    destruct (refresh_ok git2 r1 Hc1) as [r2 E2].
    exists r1, r2. unfold _after_switch. rewrite E1. simpl. rewrite E2. simpl.
    eexists. split; [done|]. split; [done|]. split; [done|].
    pose proof (refresh_frame _ _ _ E1)
      as (_ & P1 & _ & _ & A1 & _ & _ & X1 & _).
    pose proof (refresh_frame _ _ _ E2)
      as (_ & P2 & _ & _ & A2 & _ & _ & X2 & _).
    repeat split; try done; simpl.
    + intros bs L.
      apply refresh_cases in E2 as [(? & ? & _)|(bs' & sel & L' & -> & _)];
        [congruence|]. simpl. congruence.
    + by rewrite X2, X1.
    + by rewrite P2, P1.
    + intros Hnone. apply mode_navigating. simpl.
      by rewrite P2, P1, A2, A1.
Qed.


(** *** Refreshing *)

Lemma index_of_first old (bs : list Branch) i :
  bs.*1 !! i = Some old ->
  (forall j, j < i -> bs.*1 !! j <> Some old) ->
  index_of old bs = Some i.
Proof.
  rewrite list_lookup_fmap. intros (b & Hb & ->)%fmap_Some Hfirst.
  unfold index_of.
  assert (list_find (fun x : Branch => x.1 = b.1) bs = Some (i, b)) as ->;
    [|done].
  apply list_find_Some. repeat split; [done..|].
  intros j y Hy Hj Heq. apply (Hfirst j Hj).
  rewrite list_lookup_fmap. apply fmap_Some. exists y.
  split; [exact Hy | by rewrite Heq].
Qed.

Lemma index_of_absent old (bs : list Branch) :
  old ∉ bs.*1 -> index_of old bs = None.
Proof.
  intros Hnot. unfold index_of.
  assert (list_find (fun x : Branch => x.1 = old) bs = None) as ->; [|done].
  apply list_find_None, Forall_forall. intros x Hx Heq. apply Hnot.
  apply list_elem_of_fmap. eauto.
Qed.

(** C4.  In a state of a session: when the listing succeeds with [bs],
    the refresh returns with [bs] as the branch list, the log untouched
    and the selection on the first index of the previously selected name
    if [bs] has that name, on 0 otherwise; when the listing raises [exc],
    the refresh returns all the same, having appended the one entry
    "[error] " followed by the text of [exc] to the log, with the branch
    list and the selection as they were. *)
Theorem C4_refresh_outcome s git :
  reachable s ->
  match list_branches git with
  | Ok bs =>
      exists s', _refresh_branches git s = Ok s'
        /\ branches s' = bs /\ log_lines s' = log_lines s
        /\ (forall old i,
              selected_name s = Some old -> bs.*1 !! i = Some old ->
              (forall j, j < i -> bs.*1 !! j <> Some old) ->
              selected s' = Z.of_nat i)
        /\ ((forall old, selected_name s = Some old -> old ∉ bs.*1) ->
            selected s' = 0%Z)
  | Raise exc =>
      exists s', _refresh_branches git s = Ok s'
        /\ s' = _append_log (lit "[error] " ++ exn_text exc) s
        /\ branches s' = branches s /\ selected s' = selected s
        /\ log_lines s' = log_lines s ++ [lit "[error] " ++ exn_text exc]
  end.
Proof.
  intros (Hsel & _)%reachable_invariants.
  unfold _refresh_branches, selected_name, mbind, res_bind.
  destruct (list_branches git) as [bs|exc] eqn:L.
  - pose proof (list_branches_names_nonempty _ _ L) as Hne.
    destruct (branches s) as [|b0 bs0] eqn:B.
    + eexists. split; [done|]. by repeat split.
    + destruct Hsel as [?|Hsel]; [congruence|]. rewrite B in Hsel.
      destruct (getitem_in_range (b0 :: bs0) (selected s) Hsel) as [x ->].
      destruct (truthy x.1) eqn:T.
      * destruct (index_of x.1 bs) as [idx|] eqn:I.
        -- eexists. split; [done|]. repeat split; try done; simpl.
           ++ intros old i [= <-] Hi Hfirst.
              rewrite (index_of_first _ _ _ Hi Hfirst) in I. congruence.
           ++ intros Habs. rewrite index_of_absent in I by by apply Habs.
              done.
        -- eexists. split; [done|]. repeat split; try done; simpl.
           intros old i [= <-] Hi Hfirst.
           rewrite (index_of_first _ _ _ Hi Hfirst) in I. done.
      * eexists. split; [done|]. repeat split; try done; simpl.
        intros old i [= <-] Hi _. destruct (x.1) eqn:X; [|done].
        apply list_elem_of_lookup_2 in Hi.
        by eapply Forall_forall in Hne.
  - destruct (branches s) as [|b0 bs0] eqn:B.
    + eexists. split; [done|]. by repeat split.
    + destruct Hsel as [?|Hsel]; [congruence|]. rewrite B in Hsel.
      destruct (getitem_in_range (b0 :: bs0) (selected s) Hsel) as [x ->].
      eexists. split; [done|]. by repeat split.
Qed.

(** *** Forwarding input *)



(** *** Supervising a command *)

(** C5.  Take a run in which background task [i] is created, and later
    resumed with the exit code of its process (the step that clears the
    handle, refreshes, calls the continuation and sets the status).
    Before that step the task has read the end of its output stream and
    no line after it; the lines it read, in reading order, are among the
    entries the run appended to the log, which was only appended to, the
    log text being those entries shown one after the other; and whatever
    follows the step reads no further line for the task. *)
Theorem C5_log_complete_before_completion
    pre post i code git1 git2 s s1 s2 s3 :
  tasks s !! i = None ->
  run pre s = Some s1 ->
  step (Waited i code git1 git2) s1 = Some (Ok s2) ->
  run post s2 = Some s3 ->
  (exists before after,
     pre = before ++ Readline i [] :: after /\ lines_read i after = [])
  /\ (exists seg,
        log_lines s1 = log_lines s ++ seg
        /\ log_text s1 = shown (log_text s) seg
        /\ lines_read i pre `sublist_of` seg)
  /\ lines_read i post = [].
Proof.
  intros Hnew Hpre Hstep Hpost.
  pose proof (step_tasks _ _ _ Hstep) as (t & p & Hi & Hw & Hfin).
  split; [|split].
  - destruct (end_of_stream_before_wait _ _ _ _ _ _ Hpre Hi Hw)
      as [(t0 & H0 & _)|?]; [congruence | done].
  - by apply run_log.
  - eapply nothing_read_once_finished; [done|].
    rewrite Hfin. apply list_lookup_insert_eq. by eapply lookup_lt_Some.
Qed.

(** *** One process at a time *)

(** C1 does not hold of the code.  From the listing [main*, old]: down and
    delete start [git branch -d old], which fails, so the force delete of
    old is awaited; delete again starts [git branch -d old] once more
    while the prompt stays up; y then starts [git branch -D old] although
    the first process has not ended.  Two processes are active. *)
Theorem C1_second_process_started :
  exists s,
    run delete_then_y (initial false main_and_old_listed) = Some s
    /\ reachable s
    /\ processing s = true
    /\ active_processes s = 2.
Proof.
  eexists. split; [vm_compute; reflexivity|].
  split; [|split; reflexivity].
  apply (run_reachable delete_then_y (initial false main_and_old_listed)).
  - by apply (reach_initial _ _ false main_and_old).
  - vm_compute; reflexivity.
Qed.

End Session.

(** ** The properties on concrete sessions *)

Example splitlines_mixed :
  splitlines (lit "a" ++ [13; 10] ++ lit "b" ++ [10; 10] ++ lit "c")%N
  = [lit "a"; lit "b"; []; lit "c"].
Proof. reflexivity. Qed.

Example strip_line : strip ([32; 9] ++ lit "main" ++ [13; 10])%N = lit "main".
Proof. reflexivity. Qed.

Lemma started_reachable quit :
  reachable ascii_decode ascii_encode (initial quit main_and_old_listed).
Proof. by apply (reach_initial _ _ quit main_and_old). Qed.

Lemma after_reachable quit evs s :
  run ascii_decode ascii_encode evs (initial quit main_and_old_listed) = Some s ->
  reachable ascii_decode ascii_encode s.
Proof. apply run_reachable, started_reachable. Qed.


(** C3, as stated, fails: while the force delete of old is awaited, up
    moves the selection and the confirmation stays pending. *)
Lemma C3_counterexample :
  reachable ascii_decode ascii_encode awaiting_old
  /\ mode awaiting_old = ConfirmingForceDelete (lit "old")
  /\ exists s', press KUp awaiting_old = Ok s'
                /\ selected s' = 0%Z
                /\ mode s' = ConfirmingForceDelete (lit "old")
                /\ mode s' <> Navigating.
Proof.
  split; [|split].
  - apply (after_reachable false failed_delete). vm_compute; reflexivity.
  - vm_compute; reflexivity.
  - eexists. split; [vm_compute; reflexivity|]. by repeat split.
Qed.

Lemma C3_force_prompt_keys_witness :
  exists sy, press (KChar 121) awaiting_old = Ok sy /\ mode sy = Busy.
Proof.
  pose (s := awaiting_old).
  assert (reachable ascii_decode ascii_encode s) as Hr.
  { apply (after_reachable false failed_delete). vm_compute; reflexivity. }
  destruct (C3_force_prompt_keys ascii_decode ascii_encode s (lit "old") Hr)
    as [(sy & Hy & Hm & _) _]; [vm_compute; reflexivity|].
  exists sy. by split.
Defined.

(** C2 does not hold of the code.  From the listing [main*, old]: a
    failed delete of old, delete again and y, as for C1; the force delete
    ends with code 0 while the second [git branch -d old] still runs, so
    the controller navigates on the listing [main*].  Enter starts
    [git switch main]; the deletion left behind then ends with code 1 and
    asks for the force delete of old; the switch ends with code 1.  The
    status reports the exit code, and the controller confirms the force
    delete of old instead of navigating. *)
Theorem C2_failed_switch_ends_at_prompt :
  reachable ascii_decode ascii_encode navigating_beside_delete
  /\ mode navigating_beside_delete = Navigating
  /\ focus navigating_beside_delete = list_window
  /\ getitem (branches navigating_beside_delete)
       (selected navigating_beside_delete) = Ok (lit "main", true)
  /\ run ascii_decode ascii_encode (Key KEnter :: switch_beside_delete)
       navigating_beside_delete = Some switch_at_prompt
  /\ (exists t p,
        tasks switch_at_prompt !! 3 = Some (RunGitAsync t)
        /\ args t = [lit "git"; lit "switch"; lit "main"]
        /\ stage_of t = Waiting p)
  /\ exists s3,
       step ascii_decode ascii_encode (Waited 3 1 only_main only_main)
         switch_at_prompt = Some (Ok s3)
       /\ status s3 = exit_code_status 1
       /\ mode s3 = ConfirmingForceDelete (lit "old")
       /\ mode s3 <> Navigating.
Proof.
  split.
  { apply (after_reachable false force_delete_done). vm_compute; reflexivity. }
  do 4 (split; [vm_compute; reflexivity|]).
  split.
  - eexists _, _. split; [vm_compute; reflexivity|]. by split.
  - eexists. split; [vm_compute; reflexivity|]. by repeat split.
Qed.

(** C7, as stated, fails twice.  With quit-on-switch, a successful switch
    to old exits the application with the branch list as it was, main
    still marked current, although the repository now lists old as
    current.  And without it, in the session of C2's failure, the switch
    to main that ends with code 0 beside the deletion left behind shows
    the "Switched" hint while the controller confirms the force delete of
    old. *)
Lemma C7_counterexample :
  (exists s,
     run ascii_decode ascii_encode
       [Key KDown; Key KEnter; Spawned 0 100; Readline 0 [];
        Waited 0 0 old_checked_out old_checked_out]
       (initial true main_and_old_listed) = Some s
     /\ exited s = true
     /\ branches s = [(lit "main", true); (lit "old", false)]
     /\ list_branches old_checked_out
        = Ok [(lit "main", false); (lit "old", true)])
  /\ (reachable ascii_decode ascii_encode switch_at_prompt
      /\ exists s3,
           step ascii_decode ascii_encode (Waited 3 0 only_main only_main)
             switch_at_prompt = Some (Ok s3)
           /\ status s3 = switched_status
           /\ mode s3 = ConfirmingForceDelete (lit "old")
           /\ mode s3 <> Navigating).
Proof.
  split; [|split].
  - eexists. split; [vm_compute; reflexivity|]. by repeat split.
  - apply (after_reachable false
             (force_delete_done ++ Key KEnter :: switch_beside_delete)).
    vm_compute; reflexivity.
  - eexists. split; [vm_compute; reflexivity|]. by repeat split.
Qed.

Lemma C7_switch_succeeds_witness :
  exists s3,
    step ascii_decode ascii_encode
      (Waited 0 0 main_and_old main_and_old) switch_drained = Some (Ok s3)
    /\ status s3 = switched_status /\ mode s3 = Navigating.
Proof.
  pose (s2 := switch_drained).
  pose (p := {| pid := 100; stdin_is_none := false |}).
  pose (t := {| args := [lit "git"; lit "switch"; lit "main"];
                on_success := Some cb_after_switch; on_failure := None;
                refresh := true; stage_of := Waiting p |}).
  destruct (C7_switch_succeeds ascii_decode ascii_encode
              (initial false main_and_old_listed) (lit "main", true)
              [Spawned 0 100; Readline 0 []] s2 0 t p
              main_and_old main_and_old)
    as (_ & H);
    [apply started_reachable | reflexivity | reflexivity | reflexivity
    | vm_compute; reflexivity | vm_compute; reflexivity | reflexivity
    | reflexivity |].
  simpl in H. destruct H as (r1 & r2 & s3 & _ & _ & Hs & _ & _ & _ & Hst
                              & _ & _ & _ & Hm).
  exists s3. split; [done|]. split; [done|]. by apply Hm.
Defined.

Lemma C4_refresh_outcome_witness :
  exists s',
    _refresh_branches old_checked_out (initial false main_and_old_listed)
    = Ok s'
    /\ branches s' = [(lit "main", false); (lit "old", true)].
Proof.
  pose proof (C4_refresh_outcome ascii_decode ascii_encode
                (initial false main_and_old_listed) old_checked_out
                (started_reachable false)) as H.
  change (list_branches old_checked_out)
    with (Ok [(lit "main", false); (lit "old", true)] : res (list Branch))
    in H.
  cbv iota beta in H. destruct H as (s' & Hs & Hb & _).
  exists s'. by split.
Defined.



Lemma C5_log_complete_before_completion_witness :
  exists seg,
    log_lines (after delete_printing (initial false main_and_old_listed))
    = log_lines (initial false main_and_old_listed) ++ seg
    /\ [lit "one"; lit "two"] `sublist_of` seg.
Proof.
  pose (s := initial false main_and_old_listed).
  pose (pre := delete_printing).
  destruct (C5_log_complete_before_completion ascii_decode ascii_encode
              pre [] 0 0%Z main_and_old main_and_old s (after pre s)
              (after (pre ++ [Waited 0 0%Z main_and_old main_and_old]) s)
              (after (pre ++ [Waited 0 0%Z main_and_old main_and_old]) s))
    as (_ & (seg & Hl & _ & Hsub) & _);
    [reflexivity | vm_compute; reflexivity | vm_compute; reflexivity
    | reflexivity |].
  exists seg. split; [exact Hl | exact Hsub].
Defined.

(** * Further properties *)

(** ** Names out of the listing *)

Section Tokens.

Implicit Types (s cur n : str) (c : N).

Lemma lstrip_suffix s : exists ws, s = ws ++ lstrip s.
Proof.
  induction s as [|c s [ws IH]]; [by exists []|]. simpl.
  destruct (isspace c); [|by exists []].
  exists (c :: ws). simpl. by rewrite <- IH.
Qed.

Lemma lstrip_head s c : head (lstrip s) = Some c -> isspace c = false.
Proof.
  induction s as [|d s IH]; [done|]. simpl.
  destruct (isspace d) eqn:E; [done|]. simpl. by intros [= <-].
Qed.

Lemma lstrip_Forall (P : N -> Prop) s : Forall P s -> Forall P (lstrip s).
Proof.
  intros H. destruct (lstrip_suffix s) as [ws E]. rewrite E in H.
  by apply Forall_app in H as [_ H].
Qed.

Lemma lstrip_fixed s :
  (forall c, head s = Some c -> isspace c = false) -> lstrip s = s.
Proof.
  destruct s as [|c s]; [done|]. simpl. intros H.
  by rewrite (H c eq_refl).
Qed.

Lemma strip_Forall (P : N -> Prop) s : Forall P s -> Forall P (strip s).
Proof.
  intros H. unfold strip, rstrip.
  by apply Forall_reverse, lstrip_Forall, Forall_reverse, lstrip_Forall.
Qed.

Lemma strip_last s c : last (strip s) = Some c -> isspace c = false.
Proof. unfold strip, rstrip. rewrite last_reverse. apply lstrip_head. Qed.

Lemma strip_head s c : head (strip s) = Some c -> isspace c = false.
Proof.
  unfold strip, rstrip. set (u := lstrip s).
  destruct (lstrip_suffix (reverse u)) as [ws E].
  set (v := lstrip (reverse u)) in *.
  assert (u = reverse v ++ reverse ws) as Hu.
  { rewrite <- reverse_app, <- E. by rewrite reverse_involutive. }
  intros Hc. apply (lstrip_head s). fold u. rewrite Hu.
  destruct (reverse v); [done|]. exact Hc.
Qed.

Lemma strip_fixed n : clean_name n -> strip n = n.
Proof.
  intros (_ & Hh & Hl & _). unfold strip, rstrip.
  rewrite (lstrip_fixed n Hh).
  rewrite lstrip_fixed; [apply reverse_involutive|].
  intros c. rewrite head_reverse. apply Hl.
Qed.

Lemma linebreak_13 c : is_linebreak c = false -> (c =? 13)%N = false.
Proof.
  intros H. destruct (c =? 13)%N eqn:E; [|done].
  apply N.eqb_eq in E. by subst.
Qed.

Lemma splitlines_from_bounded (k : nat) cur s :
  length s <= k ->
  Forall (fun c => is_linebreak c = false) cur ->
  Forall (Forall (fun c => is_linebreak c = false)) (splitlines_from cur s).
Proof.
  revert cur s. induction k as [|k IH]; intros cur s Hk Hcur.
  - destruct s; [|simpl in Hk; lia]. simpl.
    destruct cur; [done|]. apply Forall_singleton. by apply Forall_reverse.
  - destruct s as [|c rest]; simpl.
    { destruct cur; [done|]. apply Forall_singleton. by apply Forall_reverse. }
    simpl in Hk. destruct (c =? 13)%N.
    + destruct rest as [|d rest'].
      * apply Forall_cons. split; [by apply Forall_reverse|]. simpl. done.
      * destruct (d =? 10)%N; (apply Forall_cons; split;
          [by apply Forall_reverse | apply IH; [simpl in *; lia | done]]).
    + destruct (is_linebreak c) eqn:E.
      * apply Forall_cons. split; [by apply Forall_reverse|].
        apply IH; [lia | done].
      * apply IH; [lia|]. by apply Forall_cons.
Qed.

Lemma splitlines_no_linebreak s :
  Forall (Forall (fun c => is_linebreak c = false)) (splitlines s).
Proof. by apply (splitlines_from_bounded (length s)). Qed.

Lemma splitlines_from_line cur n rest :
  Forall (fun c => is_linebreak c = false) n ->
  splitlines_from cur (n ++ 10%N :: rest)
  = (reverse cur ++ n) :: splitlines_from [] rest.
Proof.
  revert cur. induction n as [|c n IH]; intros cur Hn.
  - simpl. by rewrite app_nil_r.
  - apply Forall_cons in Hn as [Hc Hn]. simpl.
    rewrite (linebreak_13 c Hc), Hc, IH by done.
    by rewrite reverse_cons, <- app_assoc.
Qed.

Lemma splitlines_one_per_line (names : list str) :
  Forall clean_name names -> splitlines (one_per_line names) = names.
Proof.
  unfold splitlines, one_per_line.
  induction 1 as [|n names (_ & _ & _ & Hn) _ IH]; [done|].
  rewrite fmap_cons. simpl. rewrite <- app_assoc. simpl.
  by rewrite splitlines_from_line, IH.
Qed.

Lemma listed_names_one_per_line (names : list str) :
  Forall clean_name names -> listed_names (one_per_line names) = names.
Proof.
  intros H. unfold listed_names. rewrite splitlines_one_per_line by done.
  induction H as [|n names Hn _ IH]; [done|].
  rewrite fmap_cons, filter_cons, (strip_fixed n Hn), IH.
  destruct Hn as (Hne & _). by rewrite decide_True.
Qed.

(** X1.  Every name of a listing that succeeds is a clean token: it is
    not empty, has no whitespace at either end and holds no line
    boundary, whatever the two queries printed. *)
Theorem X1_listed_names_clean (git : queries) (bs : list Branch) :
  list_branches git = Ok bs -> Forall (fun b : Branch => clean_name b.1) bs.
Proof.
  unfold list_branches.
  destruct (rev_parse_head git) as [[c1 o1]|]; simpl; [|done].
  destruct (for_each_ref git) as [[c2 o2]|]; simpl; [|done].
  destruct (c2 =? 0)%Z; simpl; [|done].
  intros [= <-]. rewrite collect_spec. simpl.
  apply Forall_fmap, Forall_forall. intros n Hn. simpl.
  apply list_elem_of_filter in Hn as [Hne Hn].
  apply list_elem_of_fmap in Hn as (line & -> & Hline).
  split; [done|]. split; [apply strip_head|]. split; [apply strip_last|].
  apply strip_Forall.
  by eapply Forall_forall in Hline; [|apply splitlines_no_linebreak].
Qed.

(** X2.  Reading back what was printed: when the enumeration prints clean
    names one per line and returns 0, the listing is exactly those names
    in that order, each marked current when the current-branch query
    returned 0 and printed that name. *)
Theorem X2_listing_reads_back (c1 : Z) (o1 : str) (names : list str) :
  Forall clean_name names ->
  list_branches {| rev_parse_head := Ok (c1, o1);
                   for_each_ref := Ok (0%Z, one_per_line names) |}
  = Ok ((fun n : str => (n, (c1 =? 0)%Z && bool_decide (n = strip o1)))
        <$> names).
Proof.
  intros H. rewrite list_branches_eq. simpl.
  rewrite listed_names_one_per_line by done. f_equal.
  apply list_fmap_ext. intros i n Hn. unfold mark. f_equal.
  destruct (c1 =? 0)%Z; simpl; [done|].
  apply bool_decide_eq_false.
  apply list_elem_of_lookup_2 in Hn.
  eapply Forall_forall in H; [|done]. by destruct H.
Qed.

End Tokens.

(** ** Refreshing, again *)

Section Further.

Variable decode : list byte -> str.
Variable encode : str -> list byte.

Local Abbreviation step := (step decode encode).
Local Abbreviation run := (run decode encode).
Local Abbreviation reachable := (reachable decode encode).

Implicit Types (s : state) (t : git_task) (k : key) (e : event).

Local Arguments lit : simpl never.

Ltac open_ui :=
  unfold press, handle, unbound_key, on_quit, on_up, on_down, on_enter,
    on_delete, on_input_enter, on_y, on_n, finish, call, _after_switch,
    _start_force_prompt, _run_git, _send_to_proc, spawned, got_line,
    set_task, mbind, res_bind in *.

(** Where a refresh that lists [bs] puts the selection. *)
Lemma refresh_success git s bs :
  sel_ok s -> list_branches git = Ok bs ->
  _refresh_branches git s
  = Ok (set_selected
          match selected_name s with
          | Some old =>
              match index_of old bs with
              | Some idx => Z.of_nat idx
              | None => 0%Z
              end
          | None => 0%Z
          end
          (set_branches bs s)).
Proof.
  intros Hsel L.
  pose proof (list_branches_names_nonempty _ _ L) as Hne.
  unfold _refresh_branches, selected_name, mbind, res_bind. rewrite L.
  destruct (branches s) as [|b0 bs0] eqn:B; [done|].
  destruct Hsel as [?|Hsel]; [congruence|]. rewrite B in Hsel.
  destruct (getitem_in_range (b0 :: bs0) (selected s) Hsel) as [x ->].
  destruct (truthy x.1) eqn:T.
  - by destruct (index_of x.1 bs).
  - destruct (x.1) eqn:X; [|done].
    rewrite index_of_absent; [done|]. intros Hin.
    by eapply Forall_forall in Hne.
Qed.

Lemma index_of_lookup old (bs : list Branch) idx :
  index_of old bs = Some idx ->
  exists b, bs !! idx = Some b /\ b.1 = old
            /\ forall j, j < idx -> bs.*1 !! j <> Some old.
Proof.
  unfold index_of.
  destruct (list_find _ bs) as [[i b]|] eqn:E; [|done].
  simpl. intros [= <-]. apply list_find_Some in E as (E & Hb & Hfirst).
  exists b. repeat split; [done..|].
  intros j Hj. rewrite list_lookup_fmap.
  intros (y & Hy & Heq)%fmap_Some. by apply (Hfirst j y).
Qed.

Lemma getitem_nat {A} (l : list A) (i : nat) (x : A) :
  l !! i = Some x -> getitem l (Z.of_nat i) = Ok x.
Proof.
  intros H. unfold getitem.
  destruct (Z.of_nat i <? 0)%Z eqn:E; [apply Z.ltb_lt in E; lia|].
  rewrite E. by rewrite Nat2Z.id, H.
Qed.

(** X3.  The selection follows the branch by name: after a refresh that
    lists a branch list holding the previously selected name, the
    selection is on an entry of that name. *)
Theorem X3_refresh_keeps_selected_name s git bs s' old :
  reachable s -> list_branches git = Ok bs ->
  _refresh_branches git s = Ok s' ->
  selected_name s = Some old -> old ∈ bs.*1 ->
  selected_name s' = Some old.
Proof.
  intros (Hsel & _)%reachable_invariants L R Hold Hin.
  rewrite (refresh_success _ _ _ Hsel L), Hold in R.
  destruct (index_of old bs) as [idx|] eqn:I.
  - injection R as <-.
    apply index_of_lookup in I as (b & Hb & <- & _).
    unfold selected_name; simpl. rewrite (getitem_nat (A:=Branch) _ _ _ Hb).
    by destruct bs.
  - exfalso. unfold index_of in I.
    destruct (list_find _ bs) as [[]|] eqn:E; [done|].
    apply list_find_None in E.
    apply list_elem_of_fmap in Hin as (b & -> & Hb).
    by eapply Forall_forall in E.
Qed.

(** X4.  Refreshing is idempotent when the listing succeeds: a second
    refresh with the same answers gives back the state of the first. *)
Theorem X4_refresh_idempotent s git bs s' :
  reachable s -> list_branches git = Ok bs ->
  _refresh_branches git s = Ok s' ->
  _refresh_branches git s' = Ok s'.
Proof.
  intros (Hsel & _)%reachable_invariants L R.
  pose proof (refresh_sel_ok _ _ _ R Hsel) as Hsel'.
  pose proof (list_branches_names_nonempty _ _ L) as Hne.
  rewrite (refresh_success _ _ _ Hsel L) in R. injection R as <-.
  rewrite (refresh_success _ _ _ Hsel' L). f_equal.
  set (v := match selected_name s with Some _ => _ | None => _ end) in *.
  assert (match selected_name (set_selected v (set_branches bs s)) with
          | Some old => match index_of old bs with
                        | Some idx => Z.of_nat idx
                        | None => 0%Z
                        end
          | None => 0%Z
          end = v) as ->; [|done].
  destruct (decide (bs = [])) as [->|Hbs].
  { unfold selected_name at 1; simpl. subst v.
    destruct (selected_name s); [|done].
    by rewrite index_of_absent by apply not_elem_of_nil. }
  assert (exists i b, v = Z.of_nat i /\ bs !! i = Some b
                      /\ forall j, j < i -> bs.*1 !! j <> Some b.1)
    as (i & b & -> & Hb & Hfirst).
  { assert (exists b, bs !! 0 = Some b
                      /\ forall j, j < 0 -> bs.*1 !! j <> Some b.1) as H0.
    { destruct bs as [|b0 bs0]; [done|]. eexists. split; [done|]. lia. }
    subst v. destruct (selected_name s) as [old|];
      [destruct (index_of old bs) as [idx|] eqn:I|].
    - apply index_of_lookup in I as (b & Hb & <- & Hfirst). by exists idx, b.
    - destruct H0 as (b & ? & ?). by exists 0, b.
    - destruct H0 as (b & ? & ?). by exists 0, b. }
  assert (selected_name (set_selected (Z.of_nat i) (set_branches bs s))
          = Some b.1) as ->.
  { unfold selected_name; simpl.
    rewrite (getitem_nat (A:=Branch) _ _ _ Hb). by destruct bs. }
  rewrite (index_of_first b.1 bs i); [done | | done].
  rewrite list_lookup_fmap. apply fmap_Some. exists b. by split.
Qed.


(** ** What is drawn *)

Lemma render_from_spec (selected : Z) (idx : nat) (bs : list Branch)
    (lines : list fragment) :
  render_from selected idx bs lines
  = lines ++ imap (fun i b => render_line selected (idx + i) b) bs.
Proof.
  revert idx lines. induction bs as [|b bs IH]; intros idx lines.
  - simpl. by rewrite app_nil_r.
  - simpl. rewrite IH, <- app_assoc. simpl. rewrite Nat.add_0_r.
    do 2 f_equal. apply imap_ext. intros i x _. simpl.
    f_equal. lia.
Qed.

Lemma render_line_highlighted (selected : Z) (i : nat) (b : Branch) :
  highlighted (render_line selected i b) <-> Z.of_nat i = selected.
Proof.
  unfold highlighted, render_line. destruct b as [n [|]]; simpl;
    destruct (Z.of_nat i =? selected)%Z eqn:E; simpl;
    (split; [intros [H|H] | intros H]);
    try (apply Z.eqb_eq in E; done);
    try (apply Z.eqb_neq in E; done);
    try (vm_compute in H; discriminate);
    first [by left | by right].
Qed.

(** X5.  What [_render_branch_list] draws for a session with branches:
    one fragment per branch, in order, whose text is "* " or two spaces
    (the branch is current or not), the name and a newline; the fragment
    of the selected entry, and no other, carries the selection style, and
    there is such a fragment. *)
Theorem X5_render_highlights_selection s :
  reachable s -> branches s <> [] ->
  length (_render_branch_list s) = length (branches s)
  /\ (forall (i : nat) (b : Branch), branches s !! i = Some b ->
        exists f, _render_branch_list s !! i = Some f
          /\ f.2 = (if b.2 then lit "* " else lit "  ") ++ b.1 ++ [10%N]
          /\ (highlighted f <-> Z.of_nat i = selected s))
  /\ exists (i : nat) (f : fragment), Z.of_nat i = selected s
       /\ _render_branch_list s !! i = Some f /\ highlighted f.
Proof.
  intros (Hsel & _)%reachable_invariants Hne.
  destruct Hsel as [?|Hsel]; [done|].
  assert (_render_branch_list s
          = imap (fun i b => render_line (selected s) i b) (branches s))
    as ->.
  { unfold _render_branch_list. destruct (branches s); [done|].
    cbn [is_empty]. by rewrite render_from_spec. }
  split; [apply length_imap|].
  assert (forall (i : nat) (b : Branch), branches s !! i = Some b ->
            imap (fun i b => render_line (selected s) i b) (branches s) !! i
            = Some (render_line (selected s) i b)) as Hlook.
  { intros i b Hb. by rewrite list_lookup_imap, Hb. }
  split.
  - intros i b Hb. eexists. split; [by apply Hlook|].
    split; [done | apply render_line_highlighted].
  - destruct (branches s !! Z.to_nat (selected s)) as [b|] eqn:Hb.
    + exists (Z.to_nat (selected s)), (render_line (selected s)
                                         (Z.to_nat (selected s)) b).
      split; [lia|]. split; [by apply Hlook|].
      apply render_line_highlighted. lia.
    + apply lookup_ge_None in Hb. lia.
Qed.


(** ** Keys and focus *)

Lemma dispatch_sound k s h :
  dispatch k s = Some h ->
  match h with
  | h_quit => k = KEscape \/ k = KCtrlC
  | h_up => (k = KUp \/ k = KChar 107) /\ focus s = list_window
  | h_down => (k = KDown \/ k = KChar 106) /\ focus s = list_window
  | h_enter =>
      k = KEnter /\ focus s = list_window /\ awaiting_force_branch s = None
  | h_delete => k = KDelete /\ focus s = list_window
  | h_input_enter =>
      k = KEnter /\ focus s = input_area /\ awaiting_force_branch s = None
  | h_y => k = KChar 121 /\ awaiting_force_branch s <> None
  | h_n => (k = KEnter \/ k = KChar 110) /\ awaiting_force_branch s <> None
  end.
Proof.
  unfold dispatch. destruct k as [| | | | | |c]; cbn -[N.eqb];
    repeat match goal with
      | |- context [(?a =? c)%N] =>
          destruct (N.eqb_spec a c); [subst c|]; cbn -[N.eqb]
      end;
    destruct (focus s), (awaiting_force_branch s); cbn -[N.eqb];
    intros [= <-]; repeat split; auto; done.
Qed.

Lemma dispatch_unfocused k s :
  focus s = input_area ->
  k = KUp \/ k = KDown \/ k = KDelete \/ k = KChar 107 \/ k = KChar 106 ->
  dispatch k s = None.
Proof.
  intros Hf Hk. unfold dispatch.
  destruct Hk as [->|[->|[->|[->| ->]]]]; simpl; rewrite Hf; simpl;
    by destruct (awaiting_force_branch s).
Qed.

Lemma press_busy_focus k s s' :
  press k s = Ok s' ->
  (processing s = true -> focus s = input_area) ->
  processing s' = true -> focus s' = input_area.
Proof.
  unfold press. destruct (dispatch k s) as [[]|]; open_ui;
    intros H Hs; repeat case_match; simplify_eq; simpl in *; auto.
  intros Hp. specialize (Hs Hp). congruence.
Qed.

Lemma reachable_busy_focus s :
  reachable s -> processing s = true -> focus s = input_area.
Proof.
  induction 1 as [quit git bs L Hne | s e s' _ IH He]; [done|].
  apply step_inv in He as [_ H].
  destruct e as [k|i child|i line|i code g1 g2|i|i exc].
  - by eapply press_busy_focus.
  - by destruct H as (t & _ & _ & ->).
  - destruct H as (t & p & _ & _ & ->). by destruct line.
  - destruct H as (t & p & s'' & _ & _ & F & ->).
    apply finish_frame in F as (_ & F & _). simpl. congruence.
  - destruct H as (text & _ & ->). open_ui. by repeat case_match.
  - done.
Qed.

(** X6.  Busy and focus go together: in every state of a session a
    command is marked as running exactly when the input area has the
    focus (and the branch list has it otherwise). *)
Theorem X6_focus_follows_busy s :
  reachable s -> (processing s = true <-> focus s = input_area).
Proof.
  intros Hr. split; [by apply reachable_busy_focus|].
  intros Hf. destruct (processing s) eqn:Hp; [done|].
  pose proof (reachable_focus_ok _ _ s Hr Hp). congruence.
Qed.

(** X7.  While a command runs the branch list cannot be driven: up, down
    and delete leave the state as it is, k and j are typed into the input
    area, and no key whatever changes the branch list or the selection. *)
Theorem X7_list_keys_off_while_busy s :
  reachable s -> processing s = true ->
  (forall k, k = KUp \/ k = KDown \/ k = KDelete -> press k s = Ok s)
  /\ (forall c, c = 107%N \/ c = 106%N ->
        press (KChar c) s = Ok (set_input_text (input_text s ++ [c]) s))
  /\ (forall k s', press k s = Ok s' ->
        branches s' = branches s /\ selected s' = selected s).
Proof.
  intros Hr Hp. pose proof (reachable_busy_focus s Hr Hp) as Hf.
  split; [|split].
  - intros k Hk. unfold press.
    rewrite dispatch_unfocused by (done || tauto).
    unfold unbound_key. by destruct Hk as [->|[->| ->]].
  - intros c Hc. unfold press.
    rewrite dispatch_unfocused by (done || destruct Hc as [->| ->]; tauto).
    unfold unbound_key. by rewrite Hf.
  - intros k s' H. split; [by apply press_frame in H as (_ & ? & _)|].
    unfold press in H. destruct (dispatch k s) as [h|] eqn:D.
    + apply dispatch_sound in D.
      destruct h; open_ui; repeat case_match; simplify_eq; try done;
        destruct D as (_ & D); congruence.
    + unfold unbound_key in H. by repeat case_match; simplify_eq.
Qed.

(** ** Sessions never break *)

(** X8.  In a session no key press and no end of a command raises:
    whatever key is pressed, and whatever exit code and listing a finished
    command brings, the handler's indexing of the branch list succeeds and
    the step returns a state.  (An exception of an awaited subprocess call
    is the [Raised] event, which this statement leaves aside.) *)
Theorem X8_keys_and_completions_never_raise s e r :
  reachable s ->
  (exists k, e = Key k)
  \/ (exists i code git1 git2, e = Waited i code git1 git2) ->
  step e s = Some r -> exists s', r = Ok s'.
Proof.
  intros (Hsel & _)%reachable_invariants He. unfold Controller.step.
  destruct (exited s); [done|].
  destruct He as [[k ->]|(i & code & g1 & g2 & ->)].
  - intros [= <-]. by apply press_Ok.
  - destruct (tasks s !! i) as [[t| |]|]; try done.
    destruct (stage_of t); try done. intros [= <-].
    destruct (finish_Ok t code g1 g2 s Hsel) as [s' ->]. simpl. eauto.
Qed.

(** X9.  In every state of a session with branches the selection is an
    index of the branch list, so the selected entry exists. *)
Theorem X9_selection_in_range s :
  reachable s -> branches s <> [] ->
  (0 <= selected s < Z.of_nat (length (branches s)))%Z
  /\ exists b, getitem (branches s) (selected s) = Ok b
               /\ selected_name s = Some b.1.
Proof.
  intros (Hsel & _)%reachable_invariants Hne.
  destruct Hsel as [?|Hsel]; [done|]. split; [done|].
  destruct (getitem_in_range _ _ Hsel) as [b Hb]. exists b.
  split; [done|]. unfold selected_name. rewrite Hb.
  by destruct (branches s).
Qed.

(** X10.  The text of the log area is, in every state of a session, the
    lines logged so far shown one under the other: nothing is ever
    dropped from it or rewritten. *)
Theorem X10_log_text_shows_all_lines s :
  reachable s -> log_text s = shown [] (log_lines s).
Proof.
  induction 1 as [quit git bs L Hne | s e s' _ IH He]; [done|].
  destruct (step_log _ _ _ _ _ 0 He) as (d & Hd & Td & _).
  rewrite Td, Hd, IH. unfold shown. by rewrite foldl_app.
Qed.


(** ** One command at a time, short of one key *)

Lemma commands_app (l : list task) (x : task) :
  length (List.filter is_command (l ++ [x]))
  = length (List.filter is_command l) + (if is_command x then 1 else 0).
Proof.
  rewrite List.filter_app, length_app. simpl.
  by destruct (is_command x).
Qed.

Lemma commands_insert (l : list task) (i : nat) (a b : task) :
  l !! i = Some a ->
  length (List.filter is_command (<[i := b]> l))
  + (if is_command a then 1 else 0)
  = length (List.filter is_command l) + (if is_command b then 1 else 0).
Proof.
  revert i. induction l as [|x l IH]; intros i; [done|].
  destruct i as [|i]; simpl.
  - intros [= ->]. destruct (is_command a), (is_command b); simpl; lia.
  - intros H. specialize (IH i H). destruct (is_command x); simpl; lia.
Qed.

Lemma active_le_commands s : active_processes s <= commands_running s.
Proof.
  unfold active_processes, commands_running.
  induction (tasks s) as [|x l IH]; [done|].
  rewrite filter_cons. simpl.
  destruct x as [t| |]; simpl; [|exact IH..].
  case_decide; simpl; lia.
Qed.

Lemma step_one_command e s s' :
  one_command s -> step e s = Some (Ok s') ->
  (e = Key KDelete -> awaiting_force_branch s = None) ->
  one_command s'.
Proof.
  intros [Hc Hx] [_ H]%step_inv Hd. unfold one_command, commands_running in *.
  destruct e as [k|i child|i line|i code g1 g2|i|i exc].
  - unfold press in H. destruct (dispatch k s) as [h|] eqn:D.
    + apply dispatch_sound in D.
      destruct h; open_ui; repeat case_match; simplify_eq; simpl in *;
        rewrite ?commands_app; simpl; try congruence;
        try (split; [first [assumption | lia]
                    | first [assumption | done | by auto]]).
      all: try (split; [lia|]; intros _;
                first [ done
                      | by destruct D as (_ & _ & ?)
                      | by (destruct D as (-> & _); apply Hd) ]).
      all: by specialize (Hx eq_refl).
    + unfold unbound_key in H.
      repeat case_match; simplify_eq; simpl in *; try congruence; by split.
  - destruct H as (t & Hi & _ & ->). simpl.
    pose proof (commands_insert _ i _
                  (RunGitAsync (with_stage
                     (Reading {| pid := child; stdin_is_none := false |}) t))
                  Hi) as E.
    simpl in E. split; [lia | done].
  - destruct H as (t & p & Hi & _ & ->).
    destruct line as [|b bs]; simpl.
    + pose proof (commands_insert _ i _
                    (RunGitAsync (with_stage (Waiting p) t)) Hi) as E.
      simpl in E. split; [lia | done].
    + pose proof (commands_insert _ i _ (RunGitAsync t) Hi) as E.
      simpl in E. split; [lia | done].
  - destruct H as (t & p & s'' & Hi & _ & F & ->).
    apply finish_frame in F as (_ & Fp & _ & _ & _ & Ft & _). simpl.
    rewrite Fp, Ft.
    pose proof (commands_insert _ i _ Finished Hi) as E. simpl in E.
    split; [|done]. destruct (processing s); lia.
  - destruct H as (text & Hi & ->).
    assert (tasks (_send_to_proc encode text s) = tasks s
            /\ processing (_send_to_proc encode text s) = processing s
            /\ awaiting_force_branch (_send_to_proc encode text s)
               = awaiting_force_branch s) as (Et & Ep & Ea).
    { open_ui. by repeat case_match. }
    simpl. rewrite Et, Ep, Ea.
    pose proof (commands_insert _ i _ Finished Hi) as E. simpl in E.
    split; [lia | done].
  - done.
Qed.

(** X11.  Short of one key, one process at a time: along every run of a
    session in which delete is never pressed while a force delete is
    awaited, exactly one command is in flight while [processing] is set
    and none otherwise, so at most one child process is active. *)
Theorem X11_one_process_without_delete_at_prompt quit bs evs s :
  no_delete_at_prompt decode encode evs (initial quit bs) = true ->
  run evs (initial quit bs) = Some s ->
  one_command s /\ active_processes s <= 1.
Proof.
  intros Hcalm Hrun.
  assert (one_command s) as H1.
  { assert (one_command (initial quit bs)) as H0 by by split.
    revert Hcalm Hrun H0. generalize (initial quit bs).
    induction evs as [|e evs IH]; intros s0 Hcalm Hrun H0.
    - by injection Hrun as <-.
    - apply run_cons in Hrun as (s1 & He & Hrun).
      simpl in Hcalm. rewrite He in Hcalm.
      apply andb_true_iff in Hcalm as [Hnow Hrest].
      apply (IH s1); [done..|].
      eapply step_one_command; [done..|].
      intros ->. by destruct (awaiting_force_branch s0). }
  split; [done|]. pose proof (active_le_commands s) as Ha.
  destruct H1 as [H1 _]. rewrite H1 in Ha. destruct (processing s); lia.
Qed.


Lemma calm_run_one_command evs s0 s :
  no_delete_at_prompt decode encode evs s0 = true ->
  run evs s0 = Some s -> one_command s0 -> one_command s.
Proof.
  revert s0. induction evs as [|e evs IH]; intros s0 Hcalm Hrun H0.
  - by injection Hrun as <-.
  - apply run_cons in Hrun as (s1 & He & Hrun).
    simpl in Hcalm. rewrite He in Hcalm.
    apply andb_true_iff in Hcalm as [Hnow Hrest].
    apply (IH s1); [done..|].
    eapply step_one_command; [done..|].
    intros ->. by destruct (awaiting_force_branch s0).
Qed.

Lemma commands_lookup (l : list task) i t :
  l !! i = Some (RunGitAsync t) -> 0 < length (List.filter is_command l).
Proof.
  revert i. induction l as [|x l IH]; intros [|i] H; simplify_eq/=.
  - lia.
  - destruct (is_command x); simpl; [lia|]. by eapply IH.
Qed.

(** X21.  Along every run of a session in which delete is never pressed
    while a force delete is awaited: whenever a command has not ended,
    the controller is Busy and no force delete is awaited; and when a
    command that has no failure handler (a switch, a force delete) then
    ends with a non-zero code, the status reports the code and the
    controller navigates (the application not having exited). *)
Theorem X21_no_prompt_beside_a_command quit bs evs s i t :
  no_delete_at_prompt decode encode evs (initial quit bs) = true ->
  run evs (initial quit bs) = Some s ->
  tasks s !! i = Some (RunGitAsync t) ->
  mode s = Busy /\ awaiting_force_branch s = None
  /\ forall p code git1 git2,
       stage_of t = Waiting p -> on_failure t = None -> exited s = false ->
       code <> 0%Z ->
       exists s', step (Waited i code git1 git2) s = Some (Ok s')
                  /\ status s' = exit_code_status code
                  /\ mode s' = Navigating.
Proof.
  intros Hcalm Hrun Hi.
  assert (one_command s) as [Hn Ha].
  { apply (calm_run_one_command evs (initial quit bs)); [done..|]. by split. }
  pose proof (commands_lookup _ _ _ Hi) as Hpos.
  unfold commands_running in Hn.
  assert (processing s = true) as Hp by (destruct (processing s); [done|lia]).
  specialize (Ha Hp). split; [unfold mode; by rewrite Hp|]. split; [done|].
  intros p code g1 g2 Hw Hf Hex Hcode. apply Z.eqb_neq in Hcode.
  unfold Controller.step. rewrite Hex, Hi, Hw. unfold finish.
  rewrite Hcode, Hf. simpl. eexists. split; [done|]. split; [done|].
  apply mode_navigating. by simpl.
Qed.

(** ** What only a finished command can do *)

Lemma step_quit_on_switch e s s' :
  step e s = Some (Ok s') -> quit_on_switch s' = quit_on_switch s.
Proof.
  intros H. apply (run_quit_on_switch decode encode [e]).
  simpl. by rewrite H.
Qed.

Lemma press_handler_made k s s' :
  press k s = Ok s' ->
  Forall (handler_made (quit_on_switch s)) (tasks s) ->
  Forall (handler_made (quit_on_switch s')) (tasks s').
Proof.
  unfold press. destruct (dispatch k s) as [[]|]; open_ui;
    intros H Hs; repeat case_match; simplify_eq; simpl; try done;
    try match goal with
      | E : quit_on_switch _ = _ |- _ => rewrite E
      end;
    (apply Forall_app; split; [done|]); apply Forall_singleton; simpl;
    try done; split; eauto.
Qed.

Lemma reachable_handler_made s :
  reachable s -> Forall (handler_made (quit_on_switch s)) (tasks s).
Proof.
  induction 1 as [quit git bs L Hne | s e s' _ IH He]; [by constructor|].
  rewrite (step_quit_on_switch _ _ _ He).
  pose proof He as [_ H]%step_inv.
  destruct e as [k|i child|i line|i code g1 g2|i|i exc].
  - rewrite <- (step_quit_on_switch _ _ _ He). by eapply press_handler_made.
  - destruct H as (t & Hi & _ & ->). simpl.
    apply Forall_insert; [done|]. by apply (Forall_lookup_1 _ _ _ _ IH Hi).
  - destruct H as (t & p & Hi & _ & ->).
    pose proof (Forall_lookup_1 _ _ _ _ IH Hi).
    destruct line; simpl; by apply Forall_insert.
  - destruct H as (t & p & s'' & Hi & _ & F & ->).
    apply finish_frame in F as (_ & _ & _ & _ & _ & F & _).
    simpl. rewrite F. by apply Forall_insert.
  - destruct H as (text & Hi & ->).
    assert (tasks (_send_to_proc encode text s) = tasks s) as E.
    { open_ui. by repeat case_match. }
    simpl. rewrite E. by apply Forall_insert.
  - done.
Qed.

Ltac refresh_facts :=
  repeat match goal with
    | H : _refresh_branches _ _ = Ok _ |- _ =>
        let F := fresh "F" in
        pose proof (refresh_frame _ _ _ H) as F; clear H;
        destruct F as (? & ? & ? & ? & ? & ? & ? & ? & ? & ? & ?)
    end.

(** X12.  How a session ends.  Escape and Ctrl-C exit the application
    from any state that has not exited; and an event exits it only if it
    is one of these two keys, or the end with code 0 of a command while
    quit-on-switch is set. *)
Theorem X12_exit_only_by_quit_or_switch s :
  reachable s -> exited s = false ->
  (forall k, k = KEscape \/ k = KCtrlC ->
     step (Key k) s = Some (Ok (set_exited true s)))
  /\ (forall e s', step e s = Some (Ok s') -> exited s' = true ->
        e = Key KEscape \/ e = Key KCtrlC
        \/ exists i git1 git2,
             e = Waited i 0 git1 git2 /\ quit_on_switch s = true).
Proof.
  intros Hr Hex. split.
  - intros k Hk. unfold Controller.step. rewrite Hex.
    by destruct Hk as [->| ->].
  - intros e s' [_ H]%step_inv Hex'.
    pose proof (reachable_handler_made s Hr) as Hm.
    destruct e as [k|i child|i line|i code g1 g2|i|i exc].
    + unfold press in H. destruct (dispatch k s) as [h|] eqn:D.
      * apply dispatch_sound in D.
        destruct h; [destruct D as [->| ->]; tauto|..]; exfalso;
          open_ui; repeat case_match; simplify_eq; simpl in *; congruence.
      * exfalso. unfold unbound_key in H.
        repeat case_match; simplify_eq; simpl in *; congruence.
    + exfalso. destruct H as (t & _ & _ & ->). simpl in *. congruence.
    + exfalso. destruct H as (t & p & _ & _ & ->).
      destruct line; simpl in *; congruence.
    + right. right. destruct H as (t & p & s'' & Hi & _ & F & ->).
      pose proof (Forall_lookup_1 _ _ _ _ Hm Hi) as [Hf Hs]. simpl in *.
      exists i, g1, g2. open_ui.
      destruct (code =? 0)%Z eqn:Hc.
      * apply Z.eqb_eq in Hc as ->.
        destruct Hs as [Hs|[[Hs _]|[Hs Hq]]]; rewrite Hs in F;
          [exfalso..|done];
          repeat case_match; simplify_eq; refresh_facts;
          simpl in *; congruence.
      * exfalso. destruct Hf as [Hf|[b Hf]]; rewrite Hf in F;
          simplify_eq; simpl in *; congruence.
    + exfalso. destruct H as (text & _ & ->).
      open_ui. repeat case_match; simpl in *; congruence.
    + done.
Qed.

(** X13.  The branch list changes only when a command ends with code 0:
    no key press, no output line and no failed command alters it. *)
Theorem X13_branches_change_only_on_success s e s' :
  reachable s -> step e s = Some (Ok s') ->
  branches s' <> branches s ->
  exists i git1 git2, e = Waited i 0 git1 git2.
Proof.
  intros Hr [_ H]%step_inv Hne.
  pose proof (reachable_handler_made s Hr) as Hm.
  destruct e as [k|i child|i line|i code g1 g2|i|i exc].
  - by apply press_frame in H as (_ & ? & _).
  - by destruct H as (t & _ & _ & ->).
  - destruct H as (t & p & _ & _ & ->). by destruct line.
  - destruct H as (t & p & s'' & Hi & _ & F & ->).
    pose proof (Forall_lookup_1 _ _ _ _ Hm Hi) as [Hf _]. simpl in *.
    destruct (code =? 0)%Z eqn:Hc; [apply Z.eqb_eq in Hc as ->; eauto|].
    exfalso. apply Hne. open_ui. rewrite Hc in F.
    destruct Hf as [Hf|[b Hf]]; rewrite Hf in F; by simplify_eq.
  - destruct H as (text & _ & ->). exfalso. apply Hne.
    open_ui. by repeat case_match.
  - done.
Qed.


(** ** The end of a delete *)

Lemma output_keeps_status evs s s' :
  Forall (fun e => is_output e = true) evs ->
  run evs s = Some s' -> status s' = status s.
Proof.
  revert s. induction evs as [|e evs IH]; intros s Hall;
    [by intros [= ->]|].
  apply Forall_cons in Hall as [He Hall].
  intros (s1 & [_ H]%step_inv & ->%(IH _ Hall))%run_cons.
  destruct e as [k|i child|i line|i code g1 g2|i|i exc]; try done.
  - by destruct H as (t & _ & _ & ->).
  - destruct H as (t & p & _ & _ & ->). by destruct line.
Qed.

(** X14.  A delete of [b] started from a navigating state, whose process
    then ends with code 0: the branch list is refreshed twice (for the
    [refresh] flag, then by the callback) and shows the latest listing,
    the application goes on with the branch list focused, and the status
    line is left as it was: when only the process was heard of meanwhile
    it still reads "Running: git branch -d b". *)
Theorem X14_delete_succeeds s0 b evs s2 i t p git1 git2 :
  reachable s0 -> mode s0 = Navigating ->
  getitem (branches s0) (selected s0) = Ok b ->
  i = length (tasks s0) ->
  run (Key KDelete :: evs) s0 = Some s2 ->
  tasks s2 !! i = Some (RunGitAsync t) -> stage_of t = Waiting p ->
  exited s2 = false ->
  exists r1 r2 s3,
    _refresh_branches git1 (set_proc None (set_processing false s2)) = Ok r1
    /\ _refresh_branches git2 r1 = Ok r2
    /\ step (Waited i 0 git1 git2) s2 = Some (Ok s3)
    /\ branches s3 = branches r2 /\ selected s3 = selected r2
    /\ (forall bs, list_branches git2 = Ok bs -> branches s3 = bs)
    /\ status s3 = status s2
    /\ (Forall (fun e => is_output e = true) evs ->
        status s3
        = running_status [lit "git"; lit "branch"; lit "-d"; b.1])
    /\ awaiting_force_branch s3 = awaiting_force_branch s2
    /\ processing s3 = false /\ focus s3 = list_window
    /\ exited s3 = false.
Proof.
  intros Hr Hm Hg -> Hrun Hi Hw Hex.
  pose proof (run_reachable _ _ _ _ _ Hr Hrun) as Hr2.
  apply run_cons in Hrun as (s1 & [_ Hpress]%step_inv & Hrun).
  assert (focus s0 = list_window) as Hf.
  { apply (reachable_focus_ok _ _ s0 Hr).
    by apply mode_navigating in Hm as [? _]. }
  destruct (press_starts_command KDelete s0 b (or_introl eq_refl) Hm Hf Hg)
    as (s1' & t0 & Hp' & Ht0 & _ & _ & _ & Ha0 & Hs0 & Hf0 & Hr0).
  rewrite Hpress in Hp'. injection Hp' as <-.
  assert (status s1 = running_status [lit "git"; lit "branch"; lit "-d"; b.1])
    as Hst.
  { unfold press in Hpress.
    destruct (dispatch_list_keys s0 Hf) as (_ & _ & _ & _ & Dx).
    rewrite Dx in Hpress. simpl in Hpress. unfold on_delete in Hpress.
    apply mode_navigating in Hm as [Hp0 _].
    rewrite Hp0, (getitem_nonempty _ _ _ Hg), Hg in Hpress.
    simpl in Hpress. by injection Hpress as <-. }
  assert (tasks s1 !! length (tasks s0) = Some (RunGitAsync t0)) as H0.
  { rewrite Ht0. by apply list_lookup_middle. }
  destruct (run_command_stays _ _ _ _ _ _ _ Hrun H0)
    as [?|(t' & Ht' & Ea & Es & Ef & Er)]; [congruence|].
  assert (t' = t) as -> by congruence.
  pose proof (reachable_invariants _ _ s2 Hr2) as (Hsel & _).
  set (c := set_proc None (set_processing false s2)).
  assert (sel_ok c) as Hc by exact Hsel.
  destruct (refresh_ok git1 c Hc) as [r1 E1].
  pose proof (refresh_sel_ok _ _ _ E1 Hc) as Hc1.
  destruct (refresh_ok git2 r1 Hc1) as [r2 E2].
  exists r1, r2. unfold Controller.step. rewrite Hex, Hi, Hw. unfold finish.
  rewrite Es, Er, Hs0, Hr0. simpl. fold c. rewrite E1. simpl.
  rewrite E2. simpl.
  eexists. split; [done|]. split; [done|]. split; [done|].
  pose proof (refresh_frame _ _ _ E1)
    as (_ & P1 & _ & S1 & A1 & _ & _ & X1 & _).
  pose proof (refresh_frame _ _ _ E2)
    as (_ & P2 & _ & S2 & A2 & _ & _ & X2 & _).
  repeat split; simpl; try done.
  - intros bs L.
    apply refresh_cases in E2 as [(? & ? & _)|(bs' & sel & L' & -> & _)];
      [congruence|]. simpl. congruence.
  - by rewrite S2, S1.
  - intros Hout. rewrite S2, S1. simpl.
    by rewrite (output_keeps_status _ _ _ Hout Hrun).
  - by rewrite A2, A1.
  - by rewrite P2, P1.
  - by rewrite X2, X1.
Qed.

(** ** The status line *)

Local Abbreviation known_status s :=
  (status s = initial_status \/ status s = canceled_status
   \/ status s = switched_status
   \/ (exists argv, status s = running_status argv)
   \/ (exists code, status s = exit_code_status code)
   \/ (exists b, status s = force_prompt_status b)).

Lemma press_known_status k s s' :
  press k s = Ok s' -> known_status s -> known_status s'.
Proof.
  unfold press. destruct (dispatch k s) as [[]|]; open_ui;
    intros H Hs; repeat case_match; simplify_eq; simpl; try done;
    eauto 10.
Qed.

Lemma finish_status quit t code git1 git2 s s' :
  finish t code git1 git2 s = Ok s' ->
  handler_made quit (RunGitAsync t) ->
  status s' = status s \/ status s' = switched_status
  \/ status s' = exit_code_status code
  \/ exists b, status s' = force_prompt_status b.
Proof.
  intros F [Hf Hs]. open_ui. destruct (code =? 0)%Z.
  - destruct Hs as [Hs|[[Hs _]|[Hs _]]]; rewrite Hs in F;
      repeat case_match; simplify_eq;
      repeat match goal with
        | R : _refresh_branches _ _ = Ok _ |- _ =>
            apply refresh_frame in R as (_ & _ & _ & ? & _)
        end;
      simpl in *; first [left; congruence | by right; left].
  - destruct Hf as [Hf|[b Hf]]; rewrite Hf in F; simplify_eq; simpl;
      eauto 10.
Qed.

Lemma reachable_known_status s : reachable s -> known_status s.
Proof.
  induction 1 as [quit git bs L Hne | s e s' Hr IH He]; [by left|].
  pose proof (reachable_handler_made s Hr) as Hm.
  apply step_inv in He as [_ H].
  destruct e as [k|i child|i line|i code g1 g2|i|i exc].
  - by eapply press_known_status.
  - by destruct H as (t & _ & _ & ->).
  - destruct H as (t & p & _ & _ & ->). by destruct line.
  - destruct H as (t & p & s'' & Hi & _ & F & ->).
    pose proof (Forall_lookup_1 _ _ _ _ Hm Hi) as Ht.
    destruct (finish_status _ _ _ _ _ _ _ F Ht) as [E|[E|[E|[b E]]]];
      simpl; rewrite E; eauto 10.
  - destruct H as (text & _ & ->). open_ui. by repeat case_match.
  - done.
Qed.

(** X15.  The status line of a session always shows one of six texts:
    the opening hint, "Force delete canceled", "Switched", "Running: ..."
    with a command line, "Git exited with code ...", or the force-delete
    question.  The "Done." text is never shown, since every command is
    started with a success callback. *)
Theorem X15_status_texts s :
  reachable s ->
  (status s = initial_status \/ status s = canceled_status
   \/ status s = switched_status
   \/ (exists argv, status s = running_status argv)
   \/ (exists code, status s = exit_code_status code)
   \/ (exists b, status s = force_prompt_status b))
  /\ status s <> done_status.
Proof.
  intros Hk%reachable_known_status. split; [exact Hk|].
  intros Hd. rewrite Hd in Hk.
  destruct Hk as [H|[H|[H|[[a H]|[[c H]|[b H]]]]]];
    apply (f_equal (take 2)) in H; vm_compute in H; discriminate.
Qed.


(** ** The end of a force delete *)

(** X16.  A force delete of [b] confirmed with y, whose process then
    ends with a non-zero code, is only reported: the command was
    [git branch -D b], the status shows the exit code, and the completion
    raises no prompt and leaves the branch list and the selection as they
    were. *)
Theorem X16_failed_force_delete s0 b evs s2 i t p code git1 git2 :
  reachable s0 -> mode s0 = ConfirmingForceDelete b ->
  i = length (tasks s0) ->
  run (Key (KChar 121) :: evs) s0 = Some s2 ->
  tasks s2 !! i = Some (RunGitAsync t) -> stage_of t = Waiting p ->
  exited s2 = false -> code <> 0%Z ->
  args t = [lit "git"; lit "branch"; lit "-D"; b]
  /\ exists s3,
       step (Waited i code git1 git2) s2 = Some (Ok s3)
       /\ status s3 = exit_code_status code
       /\ awaiting_force_branch s3 = awaiting_force_branch s2
       /\ branches s3 = branches s2 /\ selected s3 = selected s2
       /\ processing s3 = false /\ focus s3 = list_window.
Proof.
  intros Hr [Hp Ha]%mode_confirming -> Hrun Hi Hw Hex Hcode.
  apply run_cons in Hrun as (s1 & [_ Hpress]%step_inv & Hrun).
  pose proof (reachable_invariants _ _ s0 Hr) as (_ & _ & _ & Hne & _).
  specialize (Hne b Ha).
  assert (truthy b = true) as Hb by by apply truthy_nonempty.
  destruct (dispatch_force_prompt s0 b Ha) as (Dy & _).
  unfold press in Hpress. rewrite Dy in Hpress. simpl in Hpress.
  unfold on_y in Hpress. rewrite Ha, Hb in Hpress. simpl in Hpress.
  injection Hpress as <-.
  match type of Hrun with
  | Controller.run _ _ _ (_run_git ?a ?su ?fa ?rf ?x) = _ =>
      assert (tasks (_run_git a su fa rf x)
                !! length (tasks s0)
              = Some (RunGitAsync {| args := a; on_success := su;
                                     on_failure := fa; refresh := rf;
                                     stage_of := Spawning |})) as H0
        by (by apply list_lookup_middle)
  end.
  destruct (run_command_stays _ _ _ _ _ _ _ Hrun H0)
    as [?|(t' & Ht' & Ea & Es & Ef & Er)]; [congruence|].
  assert (t' = t) as -> by congruence. simpl in *.
  split; [done|].
  apply Z.eqb_neq in Hcode.
  unfold Controller.step. rewrite Hex, Hi, Hw. unfold finish.
  rewrite Hcode, Ef. simpl. eexists. split; [done|]. by repeat split.
Qed.

End Further.

(** ** Starting up *)

Section Start.

Implicit Types (ws out x : str).

Lemma lstrip_spaces ws x :
  Forall (fun c => isspace c = true) ws -> lstrip (ws ++ x) = lstrip x.
Proof.
  induction 1 as [|c ws Hc _ IH]; [done|]. simpl. by rewrite Hc.
Qed.

Lemma strip_padded ws1 ws2 x :
  Forall (fun c => isspace c = true) ws1 ->
  Forall (fun c => isspace c = true) ws2 ->
  clean_name x -> strip (ws1 ++ x ++ ws2) = x.
Proof.
  intros H1 H2 (Hne & Hh & Hl & _). unfold strip, rstrip.
  rewrite lstrip_spaces by done.
  assert (lstrip (x ++ ws2) = x ++ ws2) as ->.
  { apply lstrip_fixed. intros c. destruct x; [done | exact (Hh c)]. }
  rewrite reverse_app, lstrip_spaces by by apply Forall_reverse.
  rewrite lstrip_fixed; [apply reverse_involutive|].
  intros c. rewrite head_reverse. apply Hl.
Qed.

Lemma clean_true : clean_name (lit "true").
Proof.
  split; [done|]. split; [by intros c [= <-]|]. split; [by intros c [= <-]|].
  by repeat constructor.
Qed.

(** X17.  When [main] gets to run the application, the repository check
    returned 0 and printed "true" (whitespace apart), the log directory
    was made, the listing succeeded with at least one branch, and the
    application starts from the initial state on that listing, which is
    a state of a session. *)
Theorem X17_main_starts_session
    (decode : list byte -> str) (encode : str -> list byte)
    quit cwd check log_dir git s :
  main quit cwd check log_dir git = AppRuns s ->
  (exists out bs,
     check = Ok (0%Z, out) /\ strip out = lit "true"
     /\ log_dir = Ok tt /\ list_branches git = Ok bs /\ bs <> []
     /\ s = initial quit bs)
  /\ reachable decode encode s.
Proof.
  unfold main, ensure_repo, __init__, run_ui, mbind, res_bind.
  destruct check as [[code out]|]; [|done].
  destruct (code =? 0)%Z eqn:Hc; [|done]. apply Z.eqb_eq in Hc as ->.
  case_bool_decide as Ht; [|done]. simpl.
  destruct log_dir as [[]|]; [|done].
  destruct (list_branches git) as [bs|] eqn:L; [|done].
  destruct bs as [|b bs]; [done|]. simpl. intros [= <-].
  split; [by exists out, (b :: bs)|].
  by apply (reach_initial _ _ quit git).
Qed.

(** X18.  Outside a repository nothing is started: when the check
    returns a non-zero code, or prints anything but "true", [main] exits
    with status 1 after the message "Not a git repository: " and the
    working directory, whatever the log directory and the listing would
    have given. *)
Theorem X18_not_a_repository quit cwd code out log_dir git :
  code <> 0%Z \/ strip out <> lit "true" ->
  main quit cwd (Ok (code, out)) log_dir git
  = SysExit 1 (lit "Not a git repository: " ++ cwd ++ [10%N]).
Proof.
  intros H. unfold main, ensure_repo.
  destruct (code =? 0)%Z eqn:Hc; [|done].
  apply Z.eqb_eq in Hc. destruct H as [?|H]; [done|].
  by rewrite bool_decide_false.
Qed.

(** X19.  Inside a repository, with the check printing "true" between
    any whitespace and the log directory made, [main] goes by the
    listing: an exception of the listing is not caught, an empty listing
    makes [run] return after "No branches found.", and any other starts
    the application on it. *)
Theorem X19_main_goes_by_the_listing quit cwd ws1 ws2 git :
  Forall (fun c => isspace c = true) ws1 ->
  Forall (fun c => isspace c = true) ws2 ->
  main quit cwd (Ok (0%Z, ws1 ++ lit "true" ++ ws2)) (Ok tt) git
  = match list_branches git with
    | Raise e => Uncaught e
    | Ok [] => Returned (lit "No branches found." ++ [10%N])
    | Ok bs => AppRuns (initial quit bs)
    end.
Proof.
  intros H1 H2. unfold main, ensure_repo, __init__, run_ui, mbind, res_bind.
  rewrite (strip_padded ws1 ws2 _ H1 H2 clean_true).
  rewrite bool_decide_true by done. simpl.
  destruct (list_branches git) as [[|b bs]|]; done.
Qed.

End Start.

(** ** The further properties on concrete sessions *)

Lemma clean_main_old : Forall clean_name [lit "main"; lit "old"].
Proof.
  repeat constructor; try done; by intros c [= <-].
Qed.

Lemma X1_listed_names_clean_witness :
  Forall (fun b : Branch => clean_name b.1) main_and_old_listed.
Proof. apply (X1_listed_names_clean main_and_old). reflexivity. Defined.

Lemma X2_listing_reads_back_witness :
  list_branches {| rev_parse_head := Ok (0%Z, lit "old" ++ [10%N]);
                   for_each_ref := Ok (0%Z, one_per_line [lit "main"; lit "old"]) |}
  = Ok [(lit "main", false); (lit "old", true)].
Proof.
  exact (X2_listing_reads_back 0 (lit "old" ++ [10%N]) [lit "main"; lit "old"]
           clean_main_old).
Defined.

Lemma X3_refresh_keeps_selected_name_witness :
  selected_name
    (set_selected 0 (set_branches [(lit "main", false); (lit "old", true)]
                       (initial false main_and_old_listed)))
  = Some (lit "main").
Proof.
  apply (X3_refresh_keeps_selected_name ascii_decode ascii_encode
           (initial false main_and_old_listed) old_checked_out
           [(lit "main", false); (lit "old", true)]).
  - apply started_reachable.
  - reflexivity.
  - reflexivity.
  - reflexivity.
  - by left.
Defined.

Lemma X4_refresh_idempotent_witness :
  _refresh_branches old_checked_out
    (set_selected 0 (set_branches [(lit "main", false); (lit "old", true)]
                       (initial false main_and_old_listed)))
  = Ok (set_selected 0 (set_branches [(lit "main", false); (lit "old", true)]
                          (initial false main_and_old_listed))).
Proof.
  apply (X4_refresh_idempotent ascii_decode ascii_encode
           (initial false main_and_old_listed) old_checked_out
           [(lit "main", false); (lit "old", true)]).
  - apply started_reachable.
  - reflexivity.
  - reflexivity.
Defined.

Lemma X5_render_highlights_selection_witness :
  length (_render_branch_list (initial false main_and_old_listed)) = 2.
Proof.
  destruct (X5_render_highlights_selection ascii_decode ascii_encode
              (initial false main_and_old_listed))
    as (H & _); [apply started_reachable | discriminate | exact H].
Defined.

Lemma delete_drained_reachable :
  reachable ascii_decode ascii_encode delete_drained.
Proof.
  apply (after_reachable false [Key KDelete; Spawned 0 100; Readline 0 []]).
  vm_compute; reflexivity.
Qed.

Lemma switch_drained_reachable :
  reachable ascii_decode ascii_encode switch_drained.
Proof.
  apply (after_reachable false [Key KEnter; Spawned 0 100; Readline 0 []]).
  vm_compute; reflexivity.
Qed.

Lemma awaiting_old_reachable :
  reachable ascii_decode ascii_encode awaiting_old.
Proof.
  apply (after_reachable false failed_delete). vm_compute; reflexivity.
Qed.

Lemma X6_focus_follows_busy_witness : focus delete_drained = input_area.
Proof.
  apply (X6_focus_follows_busy ascii_decode ascii_encode delete_drained).
  - apply delete_drained_reachable.
  - reflexivity.
Defined.

Lemma X7_list_keys_off_while_busy_witness :
  press KUp delete_drained = Ok delete_drained.
Proof.
  destruct (X7_list_keys_off_while_busy ascii_decode ascii_encode
              delete_drained delete_drained_reachable eq_refl) as (H & _).
  apply H. by left.
Defined.

Lemma X8_keys_and_completions_never_raise_witness :
  exists s',
    step ascii_decode ascii_encode (Waited 0 1 main_and_old main_and_old)
      delete_drained = Some (Ok s').
Proof.
  destruct (step ascii_decode ascii_encode
              (Waited 0 1 main_and_old main_and_old) delete_drained)
    as [r|] eqn:E; [|discriminate E].
  destruct (X8_keys_and_completions_never_raise ascii_decode ascii_encode
              delete_drained (Waited 0 1 main_and_old main_and_old) r
              delete_drained_reachable) as [s' ->];
    [right; by exists 0, 1%Z, main_and_old, main_and_old | exact E |].
  by exists s'.
Defined.

Lemma X9_selection_in_range_witness :
  (0 <= selected awaiting_old < 2)%Z.
Proof.
  destruct (X9_selection_in_range ascii_decode ascii_encode awaiting_old
              awaiting_old_reachable) as (H & _); [discriminate | exact H].
Defined.

Lemma X10_log_text_shows_all_lines_witness :
  log_text awaiting_old = shown [] (log_lines awaiting_old).
Proof.
  exact (X10_log_text_shows_all_lines ascii_decode ascii_encode awaiting_old
           awaiting_old_reachable).
Defined.

Lemma X11_one_process_without_delete_at_prompt_witness :
  active_processes
    (after (failed_delete ++ [Key (KChar 121); Spawned 1 101])
       (initial false main_and_old_listed)) <= 1.
Proof.
  destruct (X11_one_process_without_delete_at_prompt ascii_decode ascii_encode
              false main_and_old_listed
              (failed_delete ++ [Key (KChar 121); Spawned 1 101])
              (after (failed_delete ++ [Key (KChar 121); Spawned 1 101])
                 (initial false main_and_old_listed)))
    as (_ & H); [vm_compute; reflexivity | vm_compute; reflexivity | exact H].
Defined.

Lemma X12_exit_only_by_quit_or_switch_witness :
  step ascii_decode ascii_encode (Key KEscape) delete_drained
  = Some (Ok (set_exited true delete_drained)).
Proof.
  destruct (X12_exit_only_by_quit_or_switch ascii_decode ascii_encode
              delete_drained delete_drained_reachable eq_refl) as (H & _).
  apply H. by left.
Defined.

Lemma X13_branches_change_only_on_success_witness :
  exists i git1 git2,
    Waited 0 0 old_checked_out old_checked_out = Waited i 0 git1 git2.
Proof.
  apply (X13_branches_change_only_on_success ascii_decode ascii_encode
           switch_drained
           (Waited 0 0 old_checked_out old_checked_out)
           (after [Waited 0 0 old_checked_out old_checked_out] switch_drained)).
  - apply switch_drained_reachable.
  - vm_compute; reflexivity.
  - vm_compute. discriminate.
Defined.

Lemma X14_delete_succeeds_witness :
  exists s3,
    step ascii_decode ascii_encode
      (Waited 0 0 main_and_old main_and_old) delete_drained = Some (Ok s3)
    /\ status s3
       = running_status [lit "git"; lit "branch"; lit "-d"; lit "main"].
Proof.
  pose (p := {| pid := 100; stdin_is_none := false |}).
  pose (t := {| args := [lit "git"; lit "branch"; lit "-d"; lit "main"];
                on_success := Some cb_refresh_branches;
                on_failure := Some (cb_start_force_prompt (lit "main"));
                refresh := true; stage_of := Waiting p |}).
  destruct (X14_delete_succeeds ascii_decode ascii_encode
              (initial false main_and_old_listed) (lit "main", true)
              [Spawned 0 100; Readline 0 []] delete_drained 0 t p
              main_and_old main_and_old)
    as (r1 & r2 & s3 & _ & _ & Hs & _ & _ & _ & _ & Hst & _);
    [apply started_reachable | reflexivity | reflexivity | reflexivity
    | vm_compute; reflexivity | vm_compute; reflexivity | reflexivity
    | reflexivity |].
  exists s3. split; [exact Hs|]. apply Hst. by repeat constructor.
Defined.

Lemma X15_status_texts_witness : status awaiting_old <> done_status.
Proof.
  destruct (X15_status_texts ascii_decode ascii_encode awaiting_old
              awaiting_old_reachable) as (_ & H).
  exact H.
Defined.

Lemma X16_failed_force_delete_witness :
  exists s3,
    step ascii_decode ascii_encode (Waited 1 1 main_and_old main_and_old)
      (after [Key (KChar 121); Spawned 1 101; Readline 1 []] awaiting_old)
    = Some (Ok s3)
    /\ status s3 = exit_code_status 1
    /\ awaiting_force_branch s3 = None.
Proof.
  pose (p := {| pid := 101; stdin_is_none := false |}).
  pose (t := {| args := [lit "git"; lit "branch"; lit "-D"; lit "old"];
                on_success := Some cb_refresh_branches;
                on_failure := None;
                refresh := true; stage_of := Waiting p |}).
  destruct (X16_failed_force_delete ascii_decode ascii_encode
              awaiting_old (lit "old") [Spawned 1 101; Readline 1 []]
              (after [Key (KChar 121); Spawned 1 101; Readline 1 []]
                 awaiting_old)
              1 t p 1%Z main_and_old main_and_old)
    as (_ & s3 & Hs & Hst & Ha & _);
    [apply awaiting_old_reachable | reflexivity | reflexivity
    | vm_compute; reflexivity | vm_compute; reflexivity | reflexivity
    | reflexivity | discriminate |].
  exists s3. split; [exact Hs|]. split; [exact Hst|]. by rewrite Ha.
Defined.

Lemma X17_main_starts_session_witness :
  reachable ascii_decode ascii_encode (initial false main_and_old_listed).
Proof.
  destruct (X17_main_starts_session ascii_decode ascii_encode false
              (lit "/repo") (Ok (0%Z, lit "true" ++ [10%N])) (Ok tt)
              main_and_old (initial false main_and_old_listed))
    as (_ & H); [reflexivity | exact H].
Defined.

Lemma X18_not_a_repository_witness :
  main false (lit "/tmp") (Ok (128%Z, lit "fatal: not a git repository"))
    (Ok tt) main_and_old
  = SysExit 1 (lit "Not a git repository: /tmp" ++ [10%N]).
Proof.
  apply (X18_not_a_repository false (lit "/tmp") 128
           (lit "fatal: not a git repository") (Ok tt) main_and_old).
  left. discriminate.
Defined.

Lemma X19_main_goes_by_the_listing_witness :
  main true (lit "/repo") (Ok (0%Z, lit "true" ++ [13; 10]%N)) (Ok tt)
    main_and_old
  = AppRuns (initial true main_and_old_listed).
Proof.
  apply (X19_main_goes_by_the_listing true (lit "/repo") [] [13; 10]%N
           main_and_old).
  - constructor.
  - by repeat constructor.
Defined.

Lemma X20_failed_command_outcome_witness :
  (exists s3,
     step ascii_decode ascii_encode (Waited 0 1 main_and_old main_and_old)
       delete_drained = Some (Ok s3)
     /\ status s3 = force_prompt_status (lit "main")
     /\ mode s3 = ConfirmingForceDelete (lit "main"))
  /\ (exists s3,
        step ascii_decode ascii_encode (Waited 0 1 main_and_old main_and_old)
          switch_drained = Some (Ok s3)
        /\ status s3 = exit_code_status 1
        /\ mode s3 = Navigating).
Proof.
  pose (p := {| pid := 100; stdin_is_none := false |}).
  pose (td := {| args := [lit "git"; lit "branch"; lit "-d"; lit "main"];
                 on_success := Some cb_refresh_branches;
                 on_failure := Some (cb_start_force_prompt (lit "main"));
                 refresh := true; stage_of := Waiting p |}).
  pose (ts := {| args := [lit "git"; lit "switch"; lit "main"];
                 on_success := Some cb_after_switch; on_failure := None;
                 refresh := true; stage_of := Waiting p |}).
  split.
  - destruct (X20_failed_command_outcome ascii_decode ascii_encode KDelete
                (initial false main_and_old_listed) (lit "main", true)
                [Spawned 0 100; Readline 0 []] delete_drained 0 td p 1%Z
                main_and_old main_and_old)
      as (s3 & Hs & _ & _ & _ & _ & Hst & Hm);
      [by left | reflexivity | reflexivity | reflexivity | reflexivity
      | vm_compute; reflexivity | vm_compute; reflexivity | reflexivity
      | reflexivity | discriminate |].
    exists s3. by split.
  - destruct (X20_failed_command_outcome ascii_decode ascii_encode KEnter
                (initial false main_and_old_listed) (lit "main", true)
                [Spawned 0 100; Readline 0 []] switch_drained 0 ts p 1%Z
                main_and_old main_and_old)
      as (s3 & Hs & _ & _ & _ & _ & Hst & _ & Hm);
      [by right | reflexivity | reflexivity | reflexivity | reflexivity
      | vm_compute; reflexivity | vm_compute; reflexivity | reflexivity
      | reflexivity | discriminate |].
    exists s3. by split.
Defined.

Lemma X21_no_prompt_beside_a_command_witness :
  mode switch_drained = Busy
  /\ exists s',
       step ascii_decode ascii_encode (Waited 0 1 main_and_old main_and_old)
         switch_drained = Some (Ok s')
       /\ mode s' = Navigating.
Proof.
  pose (p := {| pid := 100; stdin_is_none := false |}).
  pose (ts := {| args := [lit "git"; lit "switch"; lit "main"];
                 on_success := Some cb_after_switch; on_failure := None;
                 refresh := true; stage_of := Waiting p |}).
  destruct (X21_no_prompt_beside_a_command ascii_decode ascii_encode false
              main_and_old_listed [Key KEnter; Spawned 0 100; Readline 0 []]
              switch_drained 0 ts)
    as (Hm & _ & H);
    [vm_compute; reflexivity | vm_compute; reflexivity
    | vm_compute; reflexivity |].
  split; [exact Hm|].
  destruct (H p 1%Z main_and_old main_and_old)
    as (s' & Hs & _ & Hn); [reflexivity | reflexivity | reflexivity
                           | discriminate |].
  exists s'. by split.
Defined.
